(** * sourcemap-harvest: path reconstruction and sourcemap extraction

    A shallow embedding of [index.js]: the string helpers the program uses
    ([String.prototype.replace] with anchored patterns, [split], [join],
    [includes], [startsWith]), the POSIX flavour of Node's [path] module,
    the pure path functions ([matchesFilter], [urlToFilesystemPath],
    [normalizeSourceFilePath], [sanitizePath], [safePathJoin],
    [resolveSourceMapUrl]) and the extraction loop
    [extractOriginalSources], followed by the properties proved of them.

    Strings are sequences of one-byte characters ([string]); every pattern
    of the program is ASCII.  [path.sep] is ["/"] (POSIX). *)

From Stdlib Require Import List String Ascii Bool Arith Lia.
From Stdlib Require Import NArith DecimalString.
Import ListNotations.
Open Scope list_scope.
Open Scope string_scope.

(* ================================================================== *)
(** ** JavaScript string primitives *)
(* ================================================================== *)

Module JS.

(** [s.startsWith(pre)] *)
Definition startsWith (s pre : string) : bool := String.prefix pre s.

(** [s.slice(n)] *)
Fixpoint drop (n : nat) (s : string) : string :=
  match n, s with
  | O, _ => s
  | S _, "" => ""
  | S n', String _ t => drop n' t
  end.

(** Canonicalisation of the [i] flag on the one-byte alphabet. *)
Definition lower (c : ascii) : ascii :=
  let n := nat_of_ascii c in
  if ((65 <=? n)%nat && (n <=? 90)%nat)%bool then ascii_of_nat (n + 32) else c.

(** [/^pre/i.test(s)] for a literal, lower-case [pre]. *)
Fixpoint startsWith_ci (s pre : string) : bool :=
  match pre, s with
  | "", _ => true
  | String a p, String b t => Ascii.eqb a (lower b) && startsWith_ci t p
  | String _ _, "" => false
  end.

(** [s.replace(/^lit/, rep)]: an anchored literal is replaced at most
    once, at position 0. *)
Definition replacePrefix (lit rep s : string) : string :=
  if startsWith s lit then rep ++ drop (String.length lit) s else s.

(** [s.replace(/^lit/i, rep)] *)
Definition replacePrefix_ci (lit rep s : string) : string :=
  if startsWith_ci s lit then rep ++ drop (String.length lit) s else s.

(** [s.replace(/^\/+/, '')] *)
Fixpoint stripLeadingSlashes (s : string) : string :=
  match s with
  | String c t => if Ascii.eqb c "/" then stripLeadingSlashes t else s
  | "" => ""
  end.

(** [/^https?:\/\//.test(s)] *)
Definition isHttpScheme (s : string) : bool :=
  startsWith s "http://" || startsWith s "https://".

(** [s.replace(/^https?:\/\//, '')] *)
Definition stripHttpScheme (s : string) : string :=
  if startsWith s "http://" then drop 7 s
  else if startsWith s "https://" then drop 8 s
  else s.

(** The characters [.] does not match: LF and CR (U+2028 and U+2029 lie
    outside the one-byte alphabet). *)
Definition isLineTerminator (c : ascii) : bool :=
  Ascii.eqb c "010" || Ascii.eqb c "013".

Fixpoint noLineTerminator (s : string) : bool :=
  match s with
  | "" => true
  | String c t => negb (isLineTerminator c) && noLineTerminator t
  end.

(** [s.replace(/[?#].*$/, '')]: the match starts at the first [?] or [#]
    from which the rest of the input holds no line terminator. *)
Fixpoint stripQueryAndFragment (s : string) : string :=
  match s with
  | "" => ""
  | String c t =>
      if (Ascii.eqb c "?" || Ascii.eqb c "#") && noLineTerminator t then ""
      else String c (stripQueryAndFragment t)
  end.

(** [s.includes(pat)] *)
Fixpoint includes (s pat : string) : bool :=
  startsWith s pat ||
  match s with
  | "" => false
  | String _ t => includes t pat
  end.

(** [s.split(re)] for a pattern [re] matching exactly one character of
    the class [isSep]; the result is never empty. *)
Fixpoint split (isSep : ascii -> bool) (s : string) : list string :=
  match s with
  | "" => [""]
  | String c t =>
      if isSep c then "" :: split isSep t
      else match split isSep t with
           | f :: fs => String c f :: fs
           | [] => [String c ""]
           end
  end.

(** [parts.join(sep)] *)
Fixpoint join (sep : string) (parts : list string) : string :=
  match parts with
  | [] => ""
  | [p] => p
  | p :: rest => p ++ sep ++ join sep rest
  end.

End JS.

(* ================================================================== *)
(** ** Node's [path] module, POSIX flavour *)
(* ================================================================== *)

Module Path.

Definition sep : string := "/".

Definition isSlash (c : ascii) : bool := Ascii.eqb c "/".

(** One separator-delimited segment of [normalizeString]: empty and [.]
    segments are skipped, [..] removes the last kept segment unless
    there is none or it is itself [..]; in that case [..] is kept only
    when [allowAboveRoot]. *)
Definition normStep (allowAboveRoot : bool) (res : list string)
    (seg : string) : list string :=
  if (seg =? "") || (seg =? ".") then res
  else if seg =? ".." then
    if (0 <? List.length res)%nat && negb (last res "" =? "..") then removelast res
    else if allowAboveRoot then res ++ [".."] else res
  else res ++ [seg].

Definition normalizeSegs (allowAboveRoot : bool) (segs : list string)
    : list string :=
  fold_left (normStep allowAboveRoot) segs [].

Definition normalizeString (path : string) (allowAboveRoot : bool) : string :=
  JS.join "/" (normalizeSegs allowAboveRoot (JS.split isSlash path)).

(** The right-to-left loop of [path.resolve]: [paths] is the argument
    list reversed, with [process.cwd()] after the last one. *)
Fixpoint resolveLoop (paths : list string) (resolvedPath : string)
    : string * bool :=
  match paths with
  | [] => (resolvedPath, false)
  | p :: rest =>
      if p =? "" then resolveLoop rest resolvedPath
      else
        let resolvedPath' := (p ++ "/" ++ resolvedPath)%string in
        if JS.startsWith p "/" then (resolvedPath', true)
        else resolveLoop rest resolvedPath'
  end.

(** [path.resolve(...args)] in a process whose working directory is [cwd]. *)
Definition resolve (cwd : string) (args : list string) : string :=
  let '(resolvedPath, resolvedAbsolute) := resolveLoop (rev args ++ [cwd])%list "" in
  let normalized := normalizeString resolvedPath (negb resolvedAbsolute) in
  if resolvedAbsolute then "/" ++ normalized
  else if normalized =? "" then "." else normalized.

(** [path.normalize(p)] *)
Definition normalize (p : string) : string :=
  if p =? "" then "." else
  let isAbsolute := JS.startsWith p "/" in
  let trailingSeparator := JS.startsWith (string_of_list_ascii (rev (list_ascii_of_string p))) "/" in
  let q := normalizeString p (negb isAbsolute) in
  if q =? "" then
    if isAbsolute then "/" else if trailingSeparator then "./" else "."
  else
    let q' := if trailingSeparator then q ++ "/" else q in
    if isAbsolute then "/" ++ q' else q'.

(** [path.join(...args)] *)
Definition join (args : list string) : string :=
  match filter (fun a => negb (a =? "")) args with
  | [] => "."
  | parts => normalize (JS.join "/" parts)
  end.

(** [path.basename(p)]: the last non-empty segment, trailing separators
    ignored; empty when there is none. *)
Definition basename (p : string) : string :=
  last (filter (fun seg => negb (seg =? "")) (JS.split isSlash p)) "".

Fixpoint dropWhile (f : ascii -> bool) (l : list ascii) : list ascii :=
  match l with
  | c :: t => if f c then dropWhile f t else l
  | [] => []
  end.

(** [path.dirname(p)]: scanning from the end down to index 1, skip
    trailing separators and the last segment; cut at the separator
    found there. *)
Definition dirname (p : string) : string :=
  match p with
  | "" => "."
  | String c0 body =>
      let hasRoot := isSlash c0 in
      let r1 := dropWhile isSlash (rev (list_ascii_of_string body)) in
      match dropWhile (fun c => negb (isSlash c)) r1 with
      | [] => if hasRoot then "/" else "."
      | _ :: r3 =>
          if hasRoot && (List.length r3 =? 0)%nat then "//"
          else String c0 (string_of_list_ascii (rev r3))
      end
  end.

End Path.

(* ================================================================== *)
(** ** Results of fallible calls *)
(* ================================================================== *)

(** What a JavaScript [throw] carries, as far as the program tells them apart. *)
Inductive exn : Type :=
| Error (message : string)
| TypeError (message : string).

Inductive result (A : Type) : Type :=
| Ok (a : A)
| Throw (e : exn).
Arguments Ok {A} a.
Arguments Throw {A} e.

(* ================================================================== *)
(** ** Utility functions of [index.js] *)
(* ================================================================== *)

Definition OUTPUT_DIR : string := "out".

Definition PATH_FILTERS : list string := ["/src/"].

(** [matchesFilter], with the module constant [PATH_FILTERS] as a
    parameter.  For a string argument [filePath || ''] is [filePath]. *)
Definition matchesFilter (filters : list string) (filePath : string) : bool :=
  (List.length filters =? 0)%nat || existsb (fun f => JS.includes filePath f) filters.

(** [urlToFilesystemPath] on a string argument. *)
Definition urlToFilesystemPath (url : string) : string :=
  if url =? "" then "anonymous.js" else
  let r :=
    JS.stripQueryAndFragment
      (JS.stripHttpScheme
        (JS.replacePrefix_ci "vm://" "vm/"
          (JS.replacePrefix "file://" "file/"
            (JS.replacePrefix "rollup://" "rollup/"
              (JS.replacePrefix "webpack://" "webpack/" url))))) in
  if r =? "" then "anonymous.js" else r.

Definition normalizeSourceFilePath (sourceFilePath : string) : string :=
  let normalized :=
    JS.replacePrefix "./" ""
      (JS.replacePrefix "file://" "file/"
        (JS.replacePrefix "rollup://" "rollup/"
          (JS.replacePrefix "webpack://" "webpack/" sourceFilePath))) in
  let normalized :=
    if JS.isHttpScheme normalized then JS.stripHttpScheme normalized
    else normalized in
  let normalized := JS.stripLeadingSlashes normalized in
  if Path.basename normalized =? "" then Path.join [normalized; "index.txt"]
  else normalized.

(** The separators of [relPath.split(/[/\\]/)]. *)
Definition isPathSep (c : ascii) : bool :=
  Ascii.eqb c "/" || Ascii.eqb c "\".

(** One iteration of the loop of [sanitizePath]; [result] is the array
    being built, in order. *)
Definition sanitizeStep (result : list string) (part : string) : list string :=
  if part =? ".." then
    if (0 <? List.length result)%nat && negb (last result "" =? "..")
    then removelast result
    else result ++ ["_up_"]
  else if negb (part =? ".") && negb (part =? "") then result ++ [part]
  else result.

Definition sanitizeParts (parts : list string) : list string :=
  fold_left sanitizeStep parts [].

Definition sanitizePath (relPath : string) : string :=
  if relPath =? "" then "" else
  let sanitized := JS.stripLeadingSlashes relPath in
  let parts := JS.split isPathSep sanitized in
  JS.join Path.sep (sanitizeParts parts).

Section SafePathJoin.

(** [process.cwd()] *)
Variable cwd : string.

Definition safePathJoin (baseDir relPath : string) : result string :=
  let baseAbs := Path.resolve cwd [baseDir] in
  let sanitized := sanitizePath relPath in
  let full := Path.resolve cwd [baseAbs; sanitized] in
  let baseNormalized := baseAbs ++ Path.sep in
  let fullNormalized := full ++ Path.sep in
  if negb (JS.startsWith fullNormalized baseNormalized) then
    Throw (Error ("Unsafe path: " ++ relPath ++ " would escape base directory"))
  else Ok full.

End SafePathJoin.

(** [/^https?:|^data:|^file:|^webpack:\/\//i.test(mapRef)] *)
Definition looksAbsolute (mapRef : string) : bool :=
  JS.startsWith_ci mapRef "http:" || JS.startsWith_ci mapRef "https:"
  || JS.startsWith_ci mapRef "data:" || JS.startsWith_ci mapRef "file:"
  || JS.startsWith_ci mapRef "webpack://".

(** [resolveSourceMapUrl]; [URL_new input (Some base)] is the string form
    of [new URL(input, base)], [None] when the constructor throws.  The
    function returns [null] exactly where the constructor throws. *)
Definition resolveSourceMapUrl
    (URL_new : string -> option string -> option string)
    (mapRef scriptUrl : string) : option string :=
  if looksAbsolute mapRef then Some mapRef
  else if JS.startsWith scriptUrl "http" then URL_new mapRef (Some scriptUrl)
  else Some mapRef.

(* ================================================================== *)
(** ** Values produced by [JSON.parse] *)
(* ================================================================== *)

(** A number is kept as the text [String] gives for it (["0"], ["1.5"],
    ["1e+21"], ["Infinity"]); that text determines the number, and the
    program tests numbers for truthiness, prints them and compares a loop
    index with them.  The members of an object have distinct keys
    ([JSON.parse] keeps the last of two equal ones). *)
#[warnings="-register-all"]
Inductive json : Type :=
| JNull
| JBool (b : bool)
| JNum (text : string)
| JStr (s : string)
| JArr (items : list json)
| JObj (members : list (string * json)).

Module Value.

Fixpoint lookup (k : string) (members : list (string * json)) : option json :=
  match members with
  | [] => None
  | (k', v) :: rest => if k' =? k then Some v else lookup k rest
  end.

(** ToBoolean.  [JSON.parse] gives no [NaN], and both zeros print as
    ["0"]. *)
Definition truthy (v : json) : bool :=
  match v with
  | JNull => false
  | JBool b => b
  | JNum text => negb (text =? "0")
  | JStr s => negb (s =? "")
  | JArr _ | JObj _ => true
  end.

(** [v.k] for a key [k] that no built-in prototype defines ([sources],
    [sourcesContent]); [None] is [undefined].  Reading a property of
    [null] throws. *)
Definition getMember (v : json) (k : string) : result (option json) :=
  match v with
  | JNull => Throw (TypeError ("Cannot read properties of null (reading '" ++ k ++ "')"))
  | JObj members => Ok (lookup k members)
  | _ => Ok None
  end.

(** [x || []] *)
Definition orEmptyArray (x : option json) : json :=
  match x with
  | Some v => if truthy v then v else JArr []
  | None => JArr []
  end.

(** [x || ''] *)
Definition orEmptyString (x : option json) : json :=
  match x with
  | Some v => if truthy v then v else JStr ""
  | None => JStr ""
  end.

(** [x != null]: neither [null] nor [undefined] *)
Definition notNullish (x : option json) : bool :=
  match x with
  | None | Some JNull => false
  | Some _ => true
  end.

Definition decimal (i : nat) : string := NilEmpty.string_of_uint (Nat.to_uint i).

(** [v[i]] *)
Definition index (v : json) (i : nat) : option json :=
  match v with
  | JArr items => nth_error items i
  | JStr s => option_map (fun c => JStr (String c "")) (nth_error (list_ascii_of_string s) i)
  | JObj members => lookup (decimal i) members
  | _ => None
  end.

(** [String(v)]; [None] when the conversion throws a [TypeError] (an
    object whose own [toString] member shadows the inherited method). *)
Fixpoint toStr (v : json) : option string :=
  match v with
  | JNull => Some "null"
  | JBool b => Some (if b then "true" else "false")
  | JNum text => Some text
  | JStr s => Some s
  | JArr items =>
      (fix joinItems (l : list json) : option string :=
         match l with
         | [] => Some ""
         | x :: rest =>
             let sx := match x with JNull => Some "" | _ => toStr x end in
             match rest with
             | [] => sx
             | _ :: _ =>
                 match sx, joinItems rest with
                 | Some a, Some b => Some (a ++ "," ++ b)
                 | _, _ => None
                 end
             end
         end) items
  | JObj members =>
      match lookup "toString" members with
      | Some _ => None
      | None => Some "[object Object]"
      end
  end.

(** The largest index [i++] reaches: [2^53 + 1] rounds back to [2^53]. *)
Definition maxIndex : N := (2 ^ 53)%N.

(** [i++] on a loop index. *)
Definition nextIndex (i : nat) : nat :=
  if (N.of_nat i <? maxIndex)%N then S i else i.

Section LoopBound.

(** [countBelow text]: how many of the indices [0, 1, 2, ...] that [i++]
    produces are below the number [text] spells ([Number(text)]); [None]
    when there is no end to them ([Infinity], or a number above [2^53],
    where [i++] stops moving).  A text that spells no number is [NaN],
    below which no index is. *)
Variable countBelow : string -> option nat.

(** The number of rounds of [for (i = 0; i < bound; i++)] for a bound
    that is not [undefined]: [i < bound] compares [i] with
    [ToNumber(bound)], and the conversion of an array or an object goes
    through its string form and throws where [String] does. *)
Definition roundsBelow (bound : json) : result (option nat) :=
  match bound with
  | JNull => Ok (Some O)
  | JBool b => Ok (Some (if b then 1 else O))
  | JNum text => Ok (countBelow text)
  | JStr s => Ok (countBelow s)
  | JArr _ | JObj _ =>
      match toStr bound with
      | Some s => Ok (countBelow s)
      | None => Throw (TypeError "Cannot convert object to primitive value")
      end
  end.

(** The number of rounds of [for (i = 0; i < v.length; i++)]; [None]
    when the loop has no end.  An array and a string have a length of
    their own; an object has the [length] member it was given, if any;
    booleans, numbers and objects without that member have
    [length === undefined], and [i < undefined] is false. *)
Definition iterations (v : json) : result (option nat) :=
  match v with
  | JNull => Throw (TypeError "Cannot read properties of null (reading 'length')")
  | JArr items => Ok (Some (List.length items))
  | JStr s => Ok (Some (String.length s))
  | JObj members =>
      match lookup "length" members with
      | None => Ok (Some O)
      | Some bound => roundsBelow bound
      end
  | JBool _ | JNum _ => Ok (Some O)
  end.

End LoopBound.

End Value.

(* ================================================================== *)
(** ** The collaborators and the run state *)
(* ================================================================== *)

(** Calls that leave the process, in the order they are made (latest
    first in the log). *)
Inductive event : Type :=
| Fetch (url : string)
| Mkdir (dir : string)
| WriteFile (path content : string).

(** What the program does not decide: the working directory, the network
    behind [fetchUrl] ([None]: the promise rejects), [JSON.parse] ([None]:
    it throws), the [URL] constructor ([None]: it throws) and the file
    system ([false]: the call throws).  The fetcher and the file system
    answer by the history of calls so far.  Two more fields complete the
    picture: [countBelow] reads a number off its text (see
    [Value.roundsBelow]), and [patience] is the number of rounds of a loop
    without end that an observer of the run follows. *)
Record World : Type := {
  cwd : string;
  fetchUrl : list event -> string -> option string;
  JSON_parse : string -> option json;
  URL_new : string -> option string -> option string;
  mkdirSync : list event -> string -> bool;
  writeFileSync : list event -> string -> string -> bool;
  countBelow : string -> option nat;
  patience : nat
}.

(** The counters of [extractOriginalSources] and the call log.  The three
    skip counters are those of the revision that reports them; the other
    revision keeps [savedCount] only and is the same otherwise. *)
Record tally : Type := {
  savedCount : nat;
  skippedNoMapRef : nat;
  skippedFetchFailed : nat;
  skippedInvalid : nat;
  log : list event
}.


Definition logged (e : event) (st : tally) : tally :=
  {| savedCount := savedCount st; skippedNoMapRef := skippedNoMapRef st;
     skippedFetchFailed := skippedFetchFailed st;
     skippedInvalid := skippedInvalid st; log := e :: log st |}.

Definition saved (st : tally) : tally :=
  {| savedCount := S (savedCount st); skippedNoMapRef := skippedNoMapRef st;
     skippedFetchFailed := skippedFetchFailed st;
     skippedInvalid := skippedInvalid st; log := log st |}.

Definition noMapRef (st : tally) : tally :=
  {| savedCount := savedCount st; skippedNoMapRef := S (skippedNoMapRef st);
     skippedFetchFailed := skippedFetchFailed st;
     skippedInvalid := skippedInvalid st; log := log st |}.

Definition fetchFailed (st : tally) : tally :=
  {| savedCount := savedCount st; skippedNoMapRef := skippedNoMapRef st;
     skippedFetchFailed := S (skippedFetchFailed st);
     skippedInvalid := skippedInvalid st; log := log st |}.

Definition invalid (st : tally) : tally :=
  {| savedCount := savedCount st; skippedNoMapRef := skippedNoMapRef st;
     skippedFetchFailed := skippedFetchFailed st;
     skippedInvalid := S (skippedInvalid st); log := log st |}.

(** How a piece of the run ends: normally, by an exception that nothing
    caught, or not at all; [Unfinished st] is a run inside a loop without
    end, in the state [st] it is in after the rounds that were followed. *)
Inductive outcome (A : Type) : Type :=
| Returns (a : A) (st : tally)
| Throws (e : exn) (st : tally)
| Unfinished (st : tally).
Arguments Returns {A} a st.
Arguments Throws {A} e st.
Arguments Unfinished {A} st.

Definition M (A : Type) : Type := tally -> outcome A.

Definition ret {A} (a : A) : M A := fun st => Returns a st.

Definition bind {A B} (m : M A) (k : A -> M B) : M B :=
  fun st =>
    match m st with
    | Returns a st' => k a st'
    | Throws e st' => Throws e st'
    | Unfinished st' => Unfinished st'
    end.

Definition throw {A} (e : exn) : M A := fun st => Throws e st.

Definition unfinished {A} : M A := fun st => Unfinished st.

Definition lift {A} (r : result A) : M A :=
  match r with
  | Ok a => ret a
  | Throw e => throw e
  end.

Definition modify (f : tally -> tally) : M unit := fun st => Returns tt (f st).

Notation "x <- m ;; k" := (bind m (fun x => k))
  (at level 61, m at next level, right associativity).
Notation "m ;;; k" := (bind m (fun _ => k))
  (at level 61, right associativity).

(* ================================================================== *)
(** ** Main extraction logic: [extractOriginalSources] *)
(* ================================================================== *)

(** The value side of the script registry ([Map<scriptId, metadata>]);
    both fields are strings, possibly empty. *)
Record ScriptRecord : Type := {
  url : string;
  sourceMapURL : string
}.

Section Extraction.

Variable w : World.

(** The module constant [PATH_FILTERS]. *)
Variable filters : list string.

(** [await fetchUrl(url)] under [try]: the rejection is caught by every
    caller, so it is returned as [None]. *)
Definition tryFetch (url : string) : M (option string) :=
  fun st => Returns (fetchUrl w (log st) url) (logged (Fetch url) st).

(** [ensureDir] *)
Definition ensureDir (dirPath : string) : M unit :=
  fun st =>
    if mkdirSync w (log st) dirPath
    then Returns tt (logged (Mkdir dirPath) st)
    else Throws (Error ("mkdir failed: " ++ dirPath)) (logged (Mkdir dirPath) st).

(** [fs.writeFileSync] *)
Definition writeFile (path content : string) : M unit :=
  fun st =>
    if writeFileSync w (log st) path content
    then Returns tt (logged (WriteFile path content) st)
    else Throws (Error ("write failed: " ++ path)) (logged (WriteFile path content) st).

(** The [else if (sourceMapBaseUrl)] branch: resolve the source path
    against the base and fetch it; whatever throws or rejects inside the
    [try] leaves [fileContent] at [null]. *)
Definition networkContent (sourceMapBaseUrl : option string)
    (sourceFilePath : json) : M (option string) :=
  match sourceMapBaseUrl with
  | Some base =>
      match Value.toStr sourceFilePath with
      | Some rel =>
          match URL_new w rel (Some base) with
          | Some absoluteUrl => tryFetch absoluteUrl
          | None => ret None
          end
      | None => ret None
      end
  | None => ret None
  end.

(** The choice of [fileContent] for one index. *)
Definition entryContent (sourceMapBaseUrl : option string)
    (sourceFilePath : json) (embedded : option json) : M (option string) :=
  match embedded with
  | None | Some JNull => networkContent sourceMapBaseUrl sourceFilePath
  | Some v =>
      match Value.toStr v with
      | Some text => ret (Some text)
      | None => throw (TypeError "Cannot convert object to primitive value")
      end
  end.

(** Both forms the filter is tried on. *)
Definition passesFilter (normalizedPath : string) : bool :=
  negb (negb (matchesFilter filters normalizedPath)
        && negb (matchesFilter filters ("/" ++ normalizedPath))).

(** The rest of the loop body once [fileContent] is there: normalise,
    filter, join to the output directory, create the directory, write
    and count.  [normalizeSourceFilePath] calls [replace] on its
    argument, which only a string has. *)
Definition saveEntry (sourceFilePath : json) (content : string) : M unit :=
  match sourceFilePath with
  | JStr p =>
      let normalizedPath := normalizeSourceFilePath p in
      if negb (passesFilter normalizedPath) then ret tt
      else
        destPath <- lift (safePathJoin (cwd w) OUTPUT_DIR normalizedPath) ;;
        ensureDir (Path.dirname destPath) ;;;
        writeFile destPath content ;;;
        modify saved
  | _ => throw (TypeError "sourceFilePath.replace is not a function")
  end.

(** The body of the loop over [sources]; [source] is [sources[i]] and
    [embedded] is [sourcesContent[i]]. *)
Definition processSource (sourceMapBaseUrl : option string)
    (source embedded : option json) : M unit :=
  let sourceFilePath := Value.orEmptyString source in
  fileContent <- entryContent sourceMapBaseUrl sourceFilePath embedded ;;
  match fileContent with
  | None => ret tt
  | Some content => saveEntry sourceFilePath content
  end.

(** [for (let i = 0; i < sources.length; i++)], with [n] iterations left. *)
Fixpoint sourcesLoop (sourceMapBaseUrl : option string)
    (sources sourcesContent : json) (i n : nat) : M unit :=
  match n with
  | O => ret tt
  | S n' =>
      processSource sourceMapBaseUrl
        (Value.index sources i) (Value.index sourcesContent i) ;;;
      sourcesLoop sourceMapBaseUrl sources sourcesContent
        (Value.nextIndex i) n'
  end.

(** The body of the loop over the scripts. *)
Definition processScript (metadata : ScriptRecord) : M unit :=
  let scriptUrl := url metadata in
  let sourceMapReference := sourceMapURL metadata in
  if sourceMapReference =? "" then modify noMapRef else
  match resolveSourceMapUrl (URL_new w) sourceMapReference scriptUrl with
  | None => modify fetchFailed
  | Some sourceMapUrl =>
      if sourceMapUrl =? "" then modify fetchFailed else
      sourceMapBuffer <- tryFetch sourceMapUrl ;;
      match sourceMapBuffer with
      | None => modify fetchFailed
      | Some body =>
          match JSON_parse w body with
          | None => modify invalid
          | Some sourceMap =>
              let sourceMapBaseUrl := URL_new w sourceMapUrl None in
              s <- lift (Value.getMember sourceMap "sources") ;;
              let sources := Value.orEmptyArray s in
              c <- lift (Value.getMember sourceMap "sourcesContent") ;;
              let sourcesContent := Value.orEmptyArray c in
              match Value.iterations (countBelow w) sources with
              | Throw e => throw e
              | Ok (Some n) =>
                  sourcesLoop sourceMapBaseUrl sources sourcesContent 0 n
              | Ok None =>
                  sourcesLoop sourceMapBaseUrl sources sourcesContent 0
                    (patience w) ;;;
                  unfinished
              end
          end
      end
  end.

Fixpoint scriptsLoop (scripts : list (string * ScriptRecord)) : M unit :=
  match scripts with
  | [] => ret tt
  | (_, metadata) :: rest => processScript metadata ;;; scriptsLoop rest
  end.

(** [extractOriginalSources(scripts)], started after the calls of
    [history]: the counters start at zero and the function returns
    [savedCount].  The closing [console.log] of the tallies is not
    modelled. *)
Definition extractOriginalSources (scripts : list (string * ScriptRecord))
    (history : list event) : outcome nat :=
  (scriptsLoop scripts ;;; (fun st => Returns (savedCount st) st))
    {| savedCount := 0; skippedNoMapRef := 0; skippedFetchFailed := 0;
       skippedInvalid := 0; log := history |}.

End Extraction.

(* ================================================================== *)
(** ** A small world for worked examples *)
(* ================================================================== *)

Module Demo.

Definition isAbsoluteUrl (s : string) : bool :=
  JS.isHttpScheme s || JS.startsWith s "data:".

(** An [http] or [https] address with nothing behind the two slashes. *)
Definition hostless (s : string) : bool :=
  JS.isHttpScheme s && (JS.stripHttpScheme s =? "").

(** A stand-in for the [URL] constructor on the inputs of the examples:
    a base that is not absolute throws, so does an [http] address without
    a host, an absolute input is kept, an empty one gives the base, any
    other relative one replaces the last path segment of the base. *)
Definition newURL (input : string) (base : option string) : option string :=
  if hostless input then None else
  match base with
  | None => if isAbsoluteUrl input then Some input else None
  | Some b =>
      if negb (isAbsoluteUrl b) then None
      else if isAbsoluteUrl input then Some input
      else if input =? "" then Some b
      else Some (Path.dirname b ++ "/" ++ input)
  end.

(** [s] between double quotes, as JSON spells a string. *)
Definition quoted (s : string) : string :=
  String "034" (s ++ String "034" "").

(** The sourcemap of the end-to-end scenario of the specification:
    sources [../shared/a.js] and [b.js], contents [content-A] and [null]. *)
Definition sharedMap : string :=
  "{" ++ quoted "sources" ++ ":["
      ++ quoted "../shared/a.js" ++ "," ++ quoted "b.js" ++ "],"
      ++ quoted "sourcesContent" ++ ":[" ++ quoted "content-A" ++ ",null]}".

(** A sourcemap one of whose sources lies below another. *)
Definition nestedMap : string :=
  "{" ++ quoted "sources" ++ ":["
      ++ quoted "src/a.js" ++ "," ++ quoted "src/a.js/b.js" ++ "],"
      ++ quoted "sourcesContent" ++ ":[" ++ quoted "A" ++ "," ++ quoted "B" ++ "]}".

(** A sourcemap whose [sources] is an object with a [length] of its own:
    two entries, the second of which climbs out of the output directory. *)
Definition arrayLikeMap : string :=
  "{" ++ quoted "sources" ++ ":{"
      ++ quoted "length" ++ ":2,"
      ++ quoted "0" ++ ":" ++ quoted "src/o.js" ++ ","
      ++ quoted "1" ++ ":" ++ quoted "../../p.js" ++ "},"
      ++ quoted "sourcesContent" ++ ":[" ++ quoted "O" ++ "," ++ quoted "P" ++ "]}".

(** A sourcemap whose [sources] has the length [1e999], which
    [JSON.parse] reads as [Infinity]. *)
Definition endlessMap : string :=
  "{" ++ quoted "sources" ++ ":{" ++ quoted "length" ++ ":1e999},"
      ++ quoted "sourcesContent" ++ ":[" ++ quoted "E" ++ "]}".

(** A sourcemap whose only source is a host-less address, with no
    content beside it. *)
Definition hostlessMap : string :=
  "{" ++ quoted "sources" ++ ":[" ++ quoted "https://" ++ "]}".

(** [JSON.parse] on the bodies of the examples; on every other text this
    stand-in throws. *)
Definition parseBody (body : string) : option json :=
  if body =? "null" then Some JNull
  else if body =? sharedMap
  then Some (JObj [("sources", JArr [JStr "../shared/a.js"; JStr "b.js"]);
                   ("sourcesContent", JArr [JStr "content-A"; JNull])])
  else if body =? nestedMap
  then Some (JObj [("sources", JArr [JStr "src/a.js"; JStr "src/a.js/b.js"]);
                   ("sourcesContent", JArr [JStr "A"; JStr "B"])])
  else if body =? arrayLikeMap
  then Some (JObj [("sources", JObj [("length", JNum "2");
                                     ("0", JStr "src/o.js");
                                     ("1", JStr "../../p.js")]);
                   ("sourcesContent", JArr [JStr "O"; JStr "P"])])
  else if body =? endlessMap
  then Some (JObj [("sources", JObj [("length", JNum "Infinity")]);
                   ("sourcesContent", JArr [JStr "E"])])
  else if body =? hostlessMap
  then Some (JObj [("sources", JArr [JStr "https://"])])
  else None.

(** The whole number a row of decimal digits spells. *)
Fixpoint digitsValue (acc : N) (s : string) : option N :=
  match s with
  | "" => Some acc
  | String c rest =>
      let d := N_of_ascii c in
      if ((48 <=? d) && (d <=? 57))%N
      then digitsValue (10 * acc + (d - 48))%N rest
      else None
  end.

(** A stand-in for [countBelow] on the texts of the examples: a row of
    decimal digits is the whole number it spells, with no end above
    [2^53]; [Infinity] has no end; any other text is taken for one that
    spells no number. *)
Definition indicesBelow (text : string) : option nat :=
  if text =? "Infinity" then None
  else match digitsValue 0 text with
       | Some n => if (n <=? Value.maxIndex)%N then Some (N.to_nat n) else None
       | None => Some O
       end.

(** A file system in which [mkdir -p] fails on a path where a regular
    file was written before, and nothing else fails. *)
Definition mkdirOk (history : list event) (dir : string) : bool :=
  negb (existsb (fun e => match e with
                          | WriteFile p _ => p =? dir
                          | _ => false
                          end) history).

Definition world (served : string -> option string) : World :=
  {| cwd := "/work";
     fetchUrl := fun _ u => served u;
     JSON_parse := parseBody;
     URL_new := newURL;
     mkdirSync := mkdirOk;
     writeFileSync := fun _ _ _ => true;
     countBelow := indicesBelow;
     patience := 3 |}.

Definition served (u : string) : option string :=
  if u =? "https://cdn.test/app.js.map" then Some sharedMap
  else if u =? "https://cdn.test/b.js" then Some "content-B"
  else if u =? "https://cdn.test/null.js.map" then Some "null"
  else if u =? "https://cdn.test/nested.js.map" then Some nestedMap
  else if u =? "https://cdn.test/arraylike.js.map" then Some arrayLikeMap
  else if u =? "https://cdn.test/endless.js.map" then Some endlessMap
  else if u =? "https://cdn.test/hostless.js.map" then Some hostlessMap
  else None.

End Demo.


(* ================================================================== *)
(** ** Network and data fetching: [decodeDataUrl], [fetchUrl] *)
(* ================================================================== *)

(** The first comma of [s]: what stands before it and what follows it. *)
Fixpoint cutAtComma (s : string) : option (string * string) :=
  match s with
  | "" => None
  | String c t =>
      if Ascii.eqb c "," then Some ("", t)
      else match cutAtComma t with
           | Some (header, payload) => Some (String c header, payload)
           | None => None
           end
  end.

(** [s] ends with the lower-case literal [suffix], letter case ignored. *)
Definition endsWith_ci (s suffix : string) : bool :=
  JS.startsWith_ci (JS.drop (String.length s - String.length suffix) s) suffix.

(** The match of [String(dataUrl)] against the pattern of
    [decodeDataUrl], case-insensitive: [data:], a lazy group of characters
    other than the comma, an optional group [;base64], a comma, and a
    third group of characters matched by the dot up to the end of the
    input.  The result is the pair of [!!match[2]] and [match[3]].  The
    first group holds no comma, so the comma of the pattern is the first
    comma of the input; the lazy first group lets [;base64] match exactly
    when the text before that comma ends with it; and the third group
    needs the rest of the input to hold no line terminator. *)
Definition matchDataUrl (dataUrl : string) : option (bool * string) :=
  if JS.startsWith_ci dataUrl "data:" then
    match cutAtComma (JS.drop 5 dataUrl) with
    | Some (header, payload) =>
        if JS.noLineTerminator payload
        then Some (endsWith_ci header ";base64", payload)
        else None
    | None => None
    end
  else None.

(** A response as [fetchUrl] reads it: status code, [Location] header and
    the concatenated chunks; or the [error] event of the request (also a
    [client.get] that throws at once). *)
Inductive reply : Type :=
| Response (statusCode : nat) (location : option string) (body : string)
| RequestError.

(** How the promise of [fetchUrl] ends.  [Uncaught]: the response
    callback threw, outside the [try] of the executor, and the promise is
    never settled.  [Pending]: not settled within the redirects followed. *)
Inductive settled : Type :=
| Resolved (buffer : string)
| Rejected (e : exn)
| Uncaught (e : exn)
| Pending.

Section DataFetching.

(** [Buffer.from(s, 'base64')], which never throws. *)
Variable base64Decode : string -> string.

(** [decodeURIComponent]; [None] when it throws [URIError]. *)
Variable decodeURIComponent : string -> option string.

(** [new URL(input[, base]).toString()], [None] when it throws. *)
Variable URL_new : string -> option string -> option string.

(** [client.get(urlObj, callback)]: the flag tells the [http] module
    from [https], the string is [urlObj.href]. *)
Variable get : bool -> string -> reply.

(** [decodeDataUrl]; the [URIError] of [decodeURIComponent] leaves the
    function as an exception. *)
Definition decodeDataUrl (dataUrl : string) : result (option string) :=
  match matchDataUrl dataUrl with
  | None => Ok None
  | Some (isBase64, payload) =>
      if isBase64 then Ok (Some (base64Decode payload))
      else match decodeURIComponent payload with
           | Some text => Ok (Some text)
           | None => Throw (Error "URI malformed")
           end
  end.

(** [res.statusCode >= 300 && res.statusCode < 400 && res.headers.location] *)
Definition isRedirect (statusCode : nat) (location : option string) : bool :=
  (300 <=? statusCode)%nat && (statusCode <? 400)%nat
  && match location with
     | Some l => negb (l =? "")
     | None => false
     end.

(** [fetchUrl], following at most [fuel - 1] redirects. *)
Fixpoint fetchUrl_impl (fuel : nat) (url : string) : settled :=
  match fuel with
  | O => Pending
  | S fuel' =>
      if JS.startsWith url "data:" then
        match decodeDataUrl url with
        | Ok (Some buffer) => Resolved buffer
        | Ok None => Rejected (Error "Invalid data URL")
        | Throw e => Rejected e
        end
      else
        match URL_new url None with
        | None => Rejected (TypeError "Invalid URL")
        | Some href =>
            match get (JS.startsWith href "http:") href with
            | RequestError => Rejected (Error "request failed")
            | Response statusCode location body =>
                if isRedirect statusCode location then
                  match URL_new (match location with Some l => l | None => "" end)
                                (Some url) with
                  | Some next => fetchUrl_impl fuel' next
                  | None => Uncaught (TypeError "Invalid URL")
                  end
                else if negb (statusCode =? 200)%nat then
                  Rejected (Error ("HTTP " ++ Value.decimal statusCode ++ " for " ++ url))
                else Resolved body
            end
        end
  end.

End DataFetching.

(* ================================================================== *)
(** ** The script registry *)
(* ================================================================== *)

(** The fields of a [Debugger.scriptParsed] event the handler reads;
    [None] is [undefined]. *)
Record scriptParsed : Type := {
  scriptId : string;
  eventUrl : option string;
  eventSourceURL : option string;
  eventSourceMapURL : option string
}.

(** [a || b] on a string or [undefined]. *)
Definition orElse (a : option string) (b : string) : string :=
  match a with
  | Some s => if s =? "" then b else s
  | None => b
  end.

(** [Map.prototype.set]: an existing key keeps its place and gets the new
    value; a new key goes to the end. *)
Fixpoint mapSet (k : string) (v : ScriptRecord)
    (m : list (string * ScriptRecord)) : list (string * ScriptRecord) :=
  match m with
  | [] => [(k, v)]
  | (k', v') :: rest =>
      if k' =? k then (k, v) :: rest else (k', v') :: mapSet k v rest
  end.

(** [Map.prototype.get] *)
Fixpoint mapGet (k : string) (m : list (string * ScriptRecord))
    : option ScriptRecord :=
  match m with
  | [] => None
  | (k', v) :: rest => if k' =? k then Some v else mapGet k rest
  end.

(** The record the handler stores for an event. *)
Definition recordOf (event : scriptParsed) : ScriptRecord :=
  {| url := orElse (eventUrl event) (orElse (eventSourceURL event) "");
     sourceMapURL := orElse (eventSourceMapURL event) "" |}.

(** The handler of [Debugger.scriptParsed]. *)
Definition onScriptParsed (scripts : list (string * ScriptRecord))
    (event : scriptParsed) : list (string * ScriptRecord) :=
  mapSet (scriptId event) (recordOf event) scripts.

(** The registry after the events of a run, from the empty [Map]. *)
Definition collectScripts (events : list scriptParsed)
    : list (string * ScriptRecord) :=
  fold_left onScriptParsed events [].

(* ================================================================== *)
(** ** Route discovery of [processUrl] *)
(* ================================================================== *)

(** The test an [href] passes to be added to the set of routes. *)
Definition isRoute (href : string) : bool :=
  negb (href =? "") && negb (JS.startsWith href "http")
  && negb (JS.startsWith href "#") && JS.startsWith href "/".

(** [Set.prototype.add], the set in insertion order. *)
Definition setAdd (x : string) (s : list string) : list string :=
  if existsb (String.eqb x) s then s else (s ++ [x])%list.

(** What [page.evaluate] returns for the [href] attributes of the
    anchors, in document order. *)
Definition discoverRoutes (hrefs : list string) : list string :=
  firstn 10
    (fold_left (fun routes href => if isRoute href then setAdd href routes
                                   else routes) hrefs []).

(** The routes the loop navigates to: [discoveredRoutes.slice(0, 5)]. *)
Definition routesToVisit (hrefs : list string) : list string :=
  firstn 5 (discoverRoutes hrefs).

(* ================================================================== *)
(** ** Main extraction logic: [extractGeneratedScripts] *)
(* ================================================================== *)

Section Generated.

Variable w : World.

(** The module constant [PATH_FILTERS]. *)
Variable filters : list string.

(** [client.send('Debugger.getScriptSource', { scriptId })] after the
    calls of the log: [None] when the call rejects (or resolves with
    nothing to destructure), [Some None] when [scriptSource] is nullish. *)
Variable getScriptSource : list event -> string -> option (option string).

(** [try { body } catch (e) { }] *)
Definition catchAll (body : M unit) : M unit :=
  fun st =>
    match body st with
    | Throws _ st' => Returns tt st'
    | o => o
    end.

(** The [try] block of the loop body. *)
Definition saveGenerated (id scriptPath : string) : M unit :=
  fun st =>
    match getScriptSource (log st) id with
    | None => Throws (Error "Debugger.getScriptSource failed") st
    | Some scriptSource =>
        (destPath <- lift (safePathJoin (cwd w) OUTPUT_DIR
                             (if scriptPath =? "" then "anonymous.js"
                              else scriptPath)) ;;
         ensureDir w (Path.dirname destPath) ;;;
         writeFile w destPath (match scriptSource with
                               | Some s => s
                               | None => ""
                               end) ;;;
         modify saved) st
    end.

(** The body of the loop over the scripts. *)
Definition processGenerated (id : string) (metadata : ScriptRecord) : M unit :=
  let scriptPath := urlToFilesystemPath (url metadata) in
  if negb (matchesFilter filters scriptPath)
     && negb (matchesFilter filters (url metadata))
  then ret tt
  else catchAll (saveGenerated id scriptPath).

Fixpoint generatedLoop (scripts : list (string * ScriptRecord)) : M unit :=
  match scripts with
  | [] => ret tt
  | (id, metadata) :: rest => processGenerated id metadata ;;; generatedLoop rest
  end.

(** [extractGeneratedScripts(scripts, client)], started after the calls
    of [history]. *)
Definition extractGeneratedScripts (scripts : list (string * ScriptRecord))
    (history : list event) : outcome nat :=
  (generatedLoop scripts ;;; (fun st => Returns (savedCount st) st))
    {| savedCount := 0; skippedNoMapRef := 0; skippedFetchFailed := 0;
       skippedInvalid := 0; log := history |}.

End Generated.

(* ================================================================== *)
(** ** Vocabulary of the further properties *)
(* ================================================================== *)

(** The record of the last event of [events] that carries the id [k]. *)
Fixpoint lastRecord (k : string) (events : list scriptParsed)
    : option ScriptRecord :=
  match events with
  | [] => None
  | e :: rest =>
      match lastRecord k rest with
      | Some r => Some r
      | None => if scriptId e =? k then Some (recordOf e) else None
      end
  end.

(** The scripts that carry no sourcemap reference. *)
Definition withoutMapRef (scripts : list (string * ScriptRecord)) : nat :=
  List.length (filter (fun entry => sourceMapURL (snd entry) =? "") scripts).

(** A chain of redirects from [url] to [final]: each URL parses to the
    [href] that is requested, and is answered by a redirect to the next. *)
Inductive redirects (URL_new : string -> option string -> option string)
    (get : bool -> string -> reply) : string -> string -> nat -> Prop :=
| redirects_here (url : string) : redirects URL_new get url url 0
| redirects_step (url href next final : string) (statusCode : nat)
    (location body : string) (n : nat) :
    JS.startsWith url "data:" = false ->
    URL_new url None = Some href ->
    get (JS.startsWith href "http:") href
    = Response statusCode (Some location) body ->
    isRedirect statusCode (Some location) = true ->
    URL_new location (Some url) = Some next ->
    redirects URL_new get next final n ->
    redirects URL_new get url final (S n).

(** A network for worked examples: [https://a.test/old] redirects to
    [new], which is served; [https://a.test/loop] redirects to itself;
    every other request fails. *)
Definition demoGet (http : bool) (href : string) : reply :=
  if href =? "https://a.test/old" then Response 301 (Some "new") ""
  else if href =? "https://a.test/new" then Response 200 None "served"
  else if href =? "https://a.test/loop" then Response 302 (Some "loop") ""
  else RequestError.

(** The calls of [fs.writeFileSync] in a log. *)
Definition writeCalls (events : list event) : list event :=
  filter (fun e => match e with WriteFile _ _ => true | _ => false end) events.

(** Between two states, the count of saved files grew by the number of
    files handed to [writeFileSync]. *)
Definition accounted (st st' : tally) : Prop :=
  savedCount st' + List.length (writeCalls (log st))
  = savedCount st + List.length (writeCalls (log st')).

(** No skip counter moved between two states. *)
Definition sameSkips (st st' : tally) : Prop :=
  skippedNoMapRef st' = skippedNoMapRef st
  /\ skippedFetchFailed st' = skippedFetchFailed st
  /\ skippedInvalid st' = skippedInvalid st.

(** The sum of the three skip counters. *)
Definition skips (st : tally) : nat :=
  skippedNoMapRef st + skippedFetchFailed st + skippedInvalid st.

(* ================================================================== *)
(** ** Vocabulary of the properties *)
(* ================================================================== *)

(** No character of [s] is a separator. *)
Fixpoint noSep (isSep : ascii -> bool) (s : string) : bool :=
  match s with
  | "" => true
  | String c t => negb (isSep c) && noSep isSep t
  end.

(** A segment that names a directory entry: not empty, not [.], not [..]. *)
Definition cleanSegment (seg : string) : Prop :=
  seg <> "" /\ seg <> "." /\ seg <> "..".

(** A clean segment without either separator. *)
Definition goodSegment (seg : string) : Prop :=
  cleanSegment seg /\ noSep isPathSep seg = true.

(** The segments of a relative path, on either separator; the empty path
    has none. *)
Definition pathSegments (p : string) : list string :=
  if p =? "" then [] else JS.split isPathSep p.

(** What [normalizeSourceFilePath] would still rewrite at the front of [p]. *)
Definition hasResidualPrefix (p : string) : bool :=
  JS.startsWith p "webpack://" || JS.startsWith p "rollup://"
  || JS.startsWith p "file://" || JS.startsWith p "./"
  || JS.isHttpScheme p || JS.startsWith p "/".

(** The input of the directory-completion step of
    [normalizeSourceFilePath]: protocol prefixes replaced, scheme and
    leading slashes stripped. *)
Definition strippedSourcePath (sourceFilePath : string) : string :=
  let normalized :=
    JS.replacePrefix "./" ""
      (JS.replacePrefix "file://" "file/"
        (JS.replacePrefix "rollup://" "rollup/"
          (JS.replacePrefix "webpack://" "webpack/" sourceFilePath))) in
  let normalized :=
    if JS.isHttpScheme normalized then JS.stripHttpScheme normalized
    else normalized in
  JS.stripLeadingSlashes normalized.

(** [resolve] of section 4.4 as the specification words it, with
    "is itself an HTTP(S) URL" read as carrying the scheme [http://] or
    [https://]. *)
Definition resolveSourceMapUrl_spec
    (URL_new : string -> option string -> option string)
    (mapRef scriptUrl : string) : option string :=
  if looksAbsolute mapRef then Some mapRef
  else if JS.isHttpScheme scriptUrl then URL_new mapRef (Some scriptUrl)
  else Some mapRef.

(** A segment [path.resolve] keeps: clean and free of [/]. *)
Definition keptSegment (seg : string) : Prop :=
  cleanSegment seg /\ noSep Path.isSlash seg = true.

(** The URL the network branch of the loop body hands to [fetchUrl]: the
    string form of [new URL(sources[i] || '', sourceMapBaseUrl)], when
    there is a base and the constructor does not throw. *)
Definition networkTarget (w : World) (base : option string)
    (source : option json) : option string :=
  match base, Value.toStr (Value.orEmptyString source) with
  | Some b, Some rel => URL_new w rel (Some b)
  | _, _ => None
  end.



(** The state an outcome ends in. *)
Definition finalState {A} (o : outcome A) : option tally :=
  match o with
  | Returns _ st | Throws _ st | Unfinished st => Some st
  end.

(** The URLs handed to [fetchUrl], oldest first. *)
Fixpoint fetched (events : list event) : list string :=
  match events with
  | [] => []
  | Fetch u :: rest => (fetched rest ++ [u])%list
  | _ :: rest => fetched rest
  end.

(** The contents handed to [fs.writeFileSync]. *)
Fixpoint written (events : list event) : list (string * string) :=
  match events with
  | [] => []
  | WriteFile p c :: rest => (written rest ++ [(p, c)])%list
  | _ :: rest => written rest
  end.

(** Every file handed to [writeFileSync] between two logs went to the
    destination [safePathJoin] accepted for the normalized form of a
    source path that passed the filter. *)
Definition safeWrites (w : World) (filters : list string)
    (before after : list event) : Prop :=
  forall dest content,
    In (dest, content) (written after) ->
    In (dest, content) (written before)
    \/ exists p,
         passesFilter filters (normalizeSourceFilePath p) = true
         /\ safePathJoin (cwd w) OUTPUT_DIR (normalizeSourceFilePath p)
            = Ok dest.

(* ================================================================== *)
(** ** Facts about [split] and [join] *)
(* ================================================================== *)

Section SplitJoin.

Variable isSep : ascii -> bool.

Lemma split_not_nil (s : string) : JS.split isSep s <> [].
Proof.
  destruct s as [|c t]; simpl; [discriminate|].
  destruct (isSep c); [discriminate|].
  destruct (JS.split isSep t); discriminate.
Qed.

(** Splitting distributes over a separator character. *)
Lemma split_app_sep (a : string) (c : ascii) (b : string) :
  isSep c = true ->
  JS.split isSep (a ++ String c b)
  = (JS.split isSep a ++ JS.split isSep b)%list.
Proof.
  intros Hc. induction a as [|x a IH]; simpl.
  - now rewrite Hc.
  - destruct (isSep x); rewrite IH; [reflexivity|].
    destruct (JS.split isSep a) eqn:E; [now apply split_not_nil in E|].
    reflexivity.
Qed.

Lemma split_noSep (s : string) :
  noSep isSep s = true -> JS.split isSep s = [s].
Proof.
  induction s as [|c t IH]; simpl; intros H; [reflexivity|].
  apply andb_prop in H as [Hc Ht].
  destruct (isSep c); [discriminate|].
  now rewrite IH.
Qed.

Lemma split_all_noSep (s : string) :
  Forall (fun seg => noSep isSep seg = true) (JS.split isSep s).
Proof.
  induction s as [|c t IH]; simpl.
  - now constructor.
  - destruct (isSep c) eqn:Ec.
    + now constructor.
    + destruct (JS.split isSep t) as [|f fs] eqn:E.
      * constructor; [simpl; now rewrite Ec|constructor].
      * inversion IH; subst. constructor; [|assumption].
        simpl. rewrite Ec. assumption.
Qed.

Hypothesis slash_is_sep : isSep "/" = true.

(** [split] undoes [join] on segments that hold no separator. *)
Lemma split_join (segs : list string) :
  segs <> [] ->
  Forall (fun seg => noSep isSep seg = true) segs ->
  JS.split isSep (JS.join "/" segs) = segs.
Proof.
  induction segs as [|p rest IH]; intros Hne HF; [congruence|].
  inversion HF; subst.
  destruct rest as [|q rest'].
  - simpl. now apply split_noSep.
  - change (JS.join "/" (p :: q :: rest'))
      with (p ++ String "/" (JS.join "/" (q :: rest'))).
    rewrite split_app_sep by assumption.
    rewrite split_noSep by assumption.
    rewrite IH by (assumption || discriminate).
    reflexivity.
Qed.

End SplitJoin.

Lemma join_head (sep p : string) (rest : list string) :
  exists tail, JS.join sep (p :: rest) = p ++ tail.
Proof.
  destruct rest as [|q rest'].
  - exists "". simpl. induction p; simpl; congruence.
  - eexists. reflexivity.
Qed.

Lemma append_nil_right (s : string) : s ++ "" = s.
Proof. induction s; simpl; congruence. Qed.

Lemma append_assoc' (a b c : string) : (a ++ b) ++ c = a ++ (b ++ c).
Proof. induction a; simpl; congruence. Qed.

Lemma startsWith_append (p s : string) : JS.startsWith (p ++ s) p = true.
Proof.
  unfold JS.startsWith. induction p as [|c p IH]; simpl.
  - now destruct s.
  - destruct (ascii_dec c c); [assumption|congruence].
Qed.

Lemma startsWith_head (c : ascii) (t : string) :
  JS.startsWith (String c t) "/" = Ascii.eqb c "/".
Proof.
  unfold JS.startsWith. cbn [prefix].
  destruct (ascii_dec "/" c) as [<-|n].
  - now destruct t.
  - symmetry. apply Ascii.eqb_neq. congruence.
Qed.

Lemma join_app (l1 l2 : list string) :
  l1 <> [] -> l2 <> [] ->
  JS.join "/" (l1 ++ l2) = JS.join "/" l1 ++ "/" ++ JS.join "/" l2.
Proof.
  induction l1 as [|p rest IH]; intros H1 H2; [congruence|].
  destruct rest as [|q rest'].
  - destruct l2; [congruence|]. reflexivity.
  - change (JS.join "/" ((p :: q :: rest') ++ l2))
      with (p ++ "/" ++ JS.join "/" ((q :: rest') ++ l2)).
    rewrite IH by (assumption || discriminate).
    change (JS.join "/" (p :: q :: rest'))
      with (p ++ "/" ++ JS.join "/" (q :: rest')).
    now rewrite !append_assoc'.
Qed.

(* ================================================================== *)
(** ** Facts about lists used as arrays *)
(* ================================================================== *)

Lemma Forall_removelast {A} (P : A -> Prop) (l : list A) :
  Forall P l -> Forall P (removelast l).
Proof.
  induction l as [|x l IH]; intros H; [constructor|].
  inversion H; subst. destruct l; simpl; [constructor|].
  constructor; [assumption|]. now apply IH.
Qed.

Lemma Forall_last {A} (P : A -> Prop) (l : list A) (d : A) :
  l <> [] -> Forall P l -> P (last l d).
Proof.
  induction l as [|x l IH]; intros Hne H; [congruence|].
  inversion H; subst. destruct l; simpl; [assumption|].
  apply IH; [discriminate|assumption].
Qed.

Lemma fold_left_invariant {A B} (P : A -> Prop) (Q : B -> Prop)
    (f : A -> B -> A) :
  (forall a b, P a -> Q b -> P (f a b)) ->
  forall l a, P a -> Forall Q l -> P (fold_left f l a).
Proof.
  intros Hf l. induction l as [|b l IH]; intros a Ha Hl; simpl; [assumption|].
  inversion Hl; subst. apply IH; [apply Hf|]; assumption.
Qed.

(* ================================================================== *)
(** ** [sanitizePath] *)
(* ================================================================== *)

Lemma goodSegment_up : goodSegment "_up_".
Proof. repeat split; discriminate. Qed.

(** Every iteration keeps the array free of [..], [.], empty segments and
    separators. *)
Lemma sanitizeStep_good (result : list string) (part : string) :
  Forall goodSegment result -> noSep isPathSep part = true ->
  Forall goodSegment (sanitizeStep result part).
Proof.
  intros Hr Hp. unfold sanitizeStep.
  destruct (String.eqb_spec part "..") as [E|E].
  - destruct ((0 <? List.length result)%nat && negb (last result "" =? "..")).
    + now apply Forall_removelast.
    + apply Forall_app. split; [assumption|].
      constructor; [apply goodSegment_up|constructor].
  - destruct (String.eqb_spec part ".") as [E1|E1]; [assumption|].
    destruct (String.eqb_spec part "") as [E2|E2]; [assumption|]. simpl.
    apply Forall_app. split; [assumption|].
    constructor; [|constructor]. repeat split; assumption.
Qed.

Lemma sanitizeParts_good (s : string) :
  Forall goodSegment (sanitizeParts (JS.split isPathSep s)).
Proof.
  unfold sanitizeParts.
  apply fold_left_invariant
    with (Q := fun part => noSep isPathSep part = true).
  - apply sanitizeStep_good.
  - constructor.
  - apply split_all_noSep.
Qed.

(** On clean segments the loop only pushes. *)
Lemma sanitizeStep_clean (result : list string) (seg : string) :
  cleanSegment seg -> sanitizeStep result seg = (result ++ [seg])%list.
Proof.
  intros (H0 & H1 & H2). unfold sanitizeStep.
  destruct (String.eqb_spec seg "..") as [E|_]; [contradiction|].
  destruct (String.eqb_spec seg ".") as [E|_]; [contradiction|].
  destruct (String.eqb_spec seg "") as [E|_]; [contradiction|].
  reflexivity.
Qed.

Lemma fold_sanitize_clean (segs acc : list string) :
  Forall cleanSegment segs ->
  fold_left sanitizeStep segs acc = (acc ++ segs)%list.
Proof.
  revert acc. induction segs as [|seg segs IH]; intros acc H; simpl.
  - now rewrite app_nil_r.
  - inversion H; subst. rewrite sanitizeStep_clean by assumption.
    rewrite IH by assumption. now rewrite <- app_assoc.
Qed.

(** A joined array of good segments starts with a character that is no
    separator, unless the array is empty. *)
Lemma join_good_head (p : string) (rest : list string) :
  goodSegment p ->
  exists c tail, JS.join "/" (p :: rest) = String c tail /\ isPathSep c = false.
Proof.
  intros ((Hne & _) & Hsep).
  destruct (join_head "/" p rest) as [tail Ht].
  destruct p as [|c t]; [congruence|].
  exists c, (t ++ tail). split; [now rewrite Ht|].
  simpl in Hsep. apply andb_prop in Hsep as [Hc _].
  now destruct (isPathSep c).
Qed.

Lemma isPathSep_slash (c : ascii) : isPathSep c = false -> Ascii.eqb c "/" = false.
Proof. unfold isPathSep. now destruct (Ascii.eqb c "/"). Qed.

Lemma Forall_good_clean (l : list string) :
  Forall goodSegment l -> Forall cleanSegment l.
Proof. apply Forall_impl. now intros seg [H _]. Qed.

Lemma Forall_good_noSep (l : list string) :
  Forall goodSegment l -> Forall (fun seg => noSep isPathSep seg = true) l.
Proof. apply Forall_impl. now intros seg [_ H]. Qed.

(** The output of [sanitizePath] is the join of good segments. *)
Lemma sanitizePath_shape (p : string) :
  exists segs, Forall goodSegment segs /\ sanitizePath p = JS.join "/" segs.
Proof.
  unfold sanitizePath. destruct (p =? "").
  - exists []. split; [constructor|reflexivity].
  - eexists. split; [apply sanitizeParts_good|reflexivity].
Qed.

Lemma pathSegments_join (segs : list string) :
  Forall goodSegment segs -> pathSegments (JS.join "/" segs) = segs.
Proof.
  intros H. destruct segs as [|p rest]; [reflexivity|].
  inversion H; subst.
  destruct (join_good_head p rest) as (c & tail & E & _); [assumption|].
  unfold pathSegments. rewrite E. simpl (_ =? _). rewrite <- E.
  apply split_join; [reflexivity|discriminate|].
  now apply Forall_good_noSep.
Qed.

Lemma sanitizePath_join_good (segs : list string) :
  Forall goodSegment segs ->
  sanitizePath (JS.join "/" segs) = JS.join "/" segs.
Proof.
  intros H. destruct segs as [|p rest]; [reflexivity|].
  assert (Hsplit : JS.split isPathSep (JS.join "/" (p :: rest)) = p :: rest).
  { apply split_join; [reflexivity|discriminate|].
    now apply Forall_good_noSep. }
  inversion H; subst.
  destruct (join_good_head p rest) as (c & tail & E & Hc); [assumption|].
  unfold sanitizePath, Path.sep. rewrite E. simpl (_ =? _).
  simpl JS.stripLeadingSlashes. rewrite (isPathSep_slash _ Hc).
  rewrite <- E, Hsplit. unfold sanitizeParts.
  rewrite fold_sanitize_clean by now apply Forall_good_clean.
  reflexivity.
Qed.

(** C10. For every string [p], no segment of [sanitizePath p] is [..],
    [.] or empty, and [sanitizePath] is idempotent:
    [sanitizePath (sanitizePath p) = sanitizePath p]. *)
Theorem sanitizePath_clean_idempotent (p : string) :
  Forall cleanSegment (pathSegments (sanitizePath p))
  /\ sanitizePath (sanitizePath p) = sanitizePath p.
Proof.
  destruct (sanitizePath_shape p) as (segs & Hgood & ->). split.
  - rewrite pathSegments_join by assumption. now apply Forall_good_clean.
  - now apply sanitizePath_join_good.
Qed.

(** The example of the specification: the guard of the [..] branch
    compares the last kept segment with [..], which the loop never keeps,
    so every second [..] in a row removes the marker of the one before. *)
Lemma sanitizeStep_dotdot_pops (result : list string) :
  Forall goodSegment result -> result <> [] ->
  sanitizeStep result ".." = removelast result.
Proof.
  intros Hgood Hne. unfold sanitizeStep. simpl (".." =? "..").
  assert (Hlast : (last result "" =? "..") = false).
  { apply String.eqb_neq.
    apply (Forall_last goodSegment result "" Hne Hgood). }
  rewrite Hlast. destruct result; [congruence|reflexivity].
Qed.

(** C3. On ["../../../etc/passwd"] the loop of [sanitizePath] keeps one
    marker, not three: the second [..] pops the [_up_] pushed by the
    first. *)
Theorem sanitizePath_three_ascents :
  sanitizePath "../../../etc/passwd" = "_up_/etc/passwd"
  /\ sanitizeParts [".."; ".."] = []
  /\ safePathJoin "/work" "out" "../../../etc/passwd"
     = Ok "/work/out/_up_/etc/passwd".
Proof. repeat split; reflexivity. Qed.

(* ================================================================== *)
(** ** [path.resolve] on the arguments of [safePathJoin] *)
(* ================================================================== *)

Lemma noSep_weaken (s : string) :
  noSep isPathSep s = true -> noSep Path.isSlash s = true.
Proof.
  induction s as [|c t IH]; simpl; [reflexivity|].
  intros H. apply andb_prop in H as [Hc Ht].
  rewrite IH by assumption. unfold isPathSep in Hc. unfold Path.isSlash.
  now destruct (Ascii.eqb c "/").
Qed.

Lemma good_kept (l : list string) :
  Forall goodSegment l -> Forall keptSegment l.
Proof.
  apply Forall_impl. intros seg [H1 H2]. split; [assumption|].
  now apply noSep_weaken.
Qed.

Lemma normStep_clean (allow : bool) (res : list string) (seg : string) :
  cleanSegment seg -> Path.normStep allow res seg = (res ++ [seg])%list.
Proof.
  intros (H0 & H1 & H2). unfold Path.normStep.
  destruct (String.eqb_spec seg "") as [E|_]; [contradiction|].
  destruct (String.eqb_spec seg ".") as [E|_]; [contradiction|].
  destruct (String.eqb_spec seg "..") as [E|_]; [contradiction|].
  reflexivity.
Qed.

Lemma fold_norm_clean (allow : bool) (segs acc : list string) :
  Forall cleanSegment segs ->
  fold_left (Path.normStep allow) segs acc = (acc ++ segs)%list.
Proof.
  revert acc. induction segs as [|seg segs IH]; intros acc H; simpl.
  - now rewrite app_nil_r.
  - inversion H; subst. rewrite normStep_clean by assumption.
    rewrite IH by assumption. now rewrite <- app_assoc.
Qed.

Lemma normStep_kept (res : list string) (seg : string) :
  Forall keptSegment res -> noSep Path.isSlash seg = true ->
  Forall keptSegment (Path.normStep false res seg).
Proof.
  intros Hr Hs. unfold Path.normStep.
  destruct (String.eqb_spec seg "") as [E0|E0]; [assumption|].
  destruct (String.eqb_spec seg ".") as [E1|E1]; [assumption|]. simpl.
  destruct (String.eqb_spec seg "..") as [E2|E2].
  - destruct ((0 <? List.length res)%nat && negb (last res "" =? ".."));
      [now apply Forall_removelast|assumption].
  - apply Forall_app. split; [assumption|].
    constructor; [|constructor]. repeat split; assumption.
Qed.

Lemma normalizeSegs_kept (s : string) :
  Forall keptSegment (Path.normalizeSegs false (JS.split Path.isSlash s)).
Proof.
  unfold Path.normalizeSegs.
  apply fold_left_invariant
    with (Q := fun seg => noSep Path.isSlash seg = true).
  - apply normStep_kept.
  - constructor.
  - apply split_all_noSep.
Qed.

(** Normalising a joined list of kept segments gives the list back. *)
Lemma fold_norm_split_join (allow : bool) (segs acc : list string) :
  Forall keptSegment segs ->
  fold_left (Path.normStep allow) (JS.split Path.isSlash (JS.join "/" segs)) acc
  = (acc ++ segs)%list.
Proof.
  intros H. destruct segs as [|p rest].
  - simpl. now rewrite app_nil_r.
  - rewrite split_join; [|reflexivity|discriminate|].
    + apply fold_norm_clean. revert H. apply Forall_impl. now intros seg [H _].
    + revert H. apply Forall_impl. now intros seg [_ H].
Qed.

Lemma join_not_empty (p : string) (rest : list string) :
  p <> "" -> JS.join "/" (p :: rest) <> "".
Proof.
  intros Hp. destruct (join_head "/" p rest) as [tail ->].
  destruct p; [congruence|discriminate].
Qed.

Lemma join_kept_empty (segs : list string) :
  Forall keptSegment segs -> JS.join "/" segs = "" -> segs = [].
Proof.
  intros H E. destruct segs as [|p rest]; [reflexivity|].
  inversion H as [|? ? [[Hp _] _] _]; subst.
  now apply join_not_empty in E.
Qed.

Lemma resolveLoop_skip (rest : list string) (acc : string) :
  Path.resolveLoop ("" :: rest) acc = Path.resolveLoop rest acc.
Proof. reflexivity. Qed.

Lemma startsWith_not_empty (p q : string) :
  q <> "" -> JS.startsWith p q = true -> (p =? "") = false.
Proof.
  intros Hq H. destruct p; [|reflexivity].
  destruct q; [congruence|discriminate].
Qed.

Lemma resolveLoop_abs (p : string) (rest : list string) (acc : string) :
  JS.startsWith p "/" = true ->
  Path.resolveLoop (p :: rest) acc = (p ++ "/" ++ acc, true).
Proof.
  intros H. simpl.
  rewrite (startsWith_not_empty p "/") by (assumption || discriminate).
  now rewrite H.
Qed.

Lemma resolveLoop_rel (p : string) (rest : list string) (acc : string) :
  p <> "" -> JS.startsWith p "/" = false ->
  Path.resolveLoop (p :: rest) acc = Path.resolveLoop rest (p ++ "/" ++ acc).
Proof.
  intros Hne H. simpl.
  destruct (String.eqb_spec p "") as [E|_]; [contradiction|].
  now rewrite H.
Qed.

(** The two strings [safePathJoin] has normalised: the base alone, and
    the base followed by the sanitized path. *)
Lemma normalize_base (B : list string) :
  Forall keptSegment B ->
  Path.normalizeString (("/" ++ JS.join "/" B) ++ "/" ++ "") false
  = JS.join "/" B.
Proof.
  intros HB. unfold Path.normalizeString, Path.normalizeSegs.
  change (("/" ++ JS.join "/" B) ++ "/" ++ "")
    with (String "/" (JS.join "/" B ++ String "/" "")).
  change (JS.split Path.isSlash (String "/" (JS.join "/" B ++ String "/" "")))
    with ("" :: JS.split Path.isSlash (JS.join "/" B ++ String "/" ""))%list.
  rewrite split_app_sep by reflexivity.
  change (fold_left (Path.normStep false)
            ("" :: JS.split Path.isSlash (JS.join "/" B) ++ JS.split Path.isSlash "") [])%list
    with (fold_left (Path.normStep false)
            (JS.split Path.isSlash (JS.join "/" B) ++ [""]) [])%list.
  rewrite fold_left_app, fold_norm_split_join by assumption.
  reflexivity.
Qed.

Lemma normalize_full (B R : list string) :
  Forall keptSegment B -> Forall goodSegment R ->
  Path.normalizeString
    (("/" ++ JS.join "/" B) ++ "/" ++ (JS.join "/" R ++ "/" ++ "")) false
  = JS.join "/" (B ++ R).
Proof.
  intros HB HR. unfold Path.normalizeString, Path.normalizeSegs.
  change (("/" ++ JS.join "/" B) ++ "/" ++ (JS.join "/" R ++ "/" ++ ""))
    with (String "/" (JS.join "/" B ++ String "/" (JS.join "/" R ++ String "/" ""))).
  change (JS.split Path.isSlash
            (String "/" (JS.join "/" B ++ String "/" (JS.join "/" R ++ String "/" ""))))
    with ("" :: JS.split Path.isSlash
                  (JS.join "/" B ++ String "/" (JS.join "/" R ++ String "/" "")))%list.
  rewrite !split_app_sep by reflexivity.
  change (JS.split Path.isSlash "") with [""].
  change (fold_left (Path.normStep false)
            ("" :: JS.split Path.isSlash (JS.join "/" B)
                   ++ JS.split Path.isSlash (JS.join "/" R) ++ [""]) [])%list
    with (fold_left (Path.normStep false)
            (JS.split Path.isSlash (JS.join "/" B)
             ++ JS.split Path.isSlash (JS.join "/" R) ++ [""]) [])%list.
  rewrite !fold_left_app.
  rewrite (fold_norm_split_join false B) by assumption.
  rewrite (fold_norm_split_join false R) by now apply good_kept.
  reflexivity.
Qed.

Section Resolve.

Variable cwd : string.
Hypothesis cwd_absolute : JS.startsWith cwd "/" = true.

Lemma cwd_not_empty : (cwd =? "") = false.
Proof. destruct cwd; [discriminate|reflexivity]. Qed.

(** With an absolute working directory the loop always ends on an
    absolute path. *)
Lemma resolveLoop_absolute (paths : list string) (acc : string) :
  exists rp, Path.resolveLoop (paths ++ [cwd]) acc = (rp, true).
Proof.
  revert acc. induction paths as [|p paths IH]; intros acc; simpl.
  - rewrite cwd_not_empty, cwd_absolute. eexists. reflexivity.
  - destruct (p =? ""); [apply IH|].
    destruct (JS.startsWith p "/"); [eexists; reflexivity|apply IH].
Qed.

(** [path.resolve] returns [/] followed by kept segments joined by [/]. *)
Lemma resolve_shape (args : list string) :
  exists segs, Forall keptSegment segs
               /\ Path.resolve cwd args = "/" ++ JS.join "/" segs.
Proof.
  unfold Path.resolve.
  destruct (resolveLoop_absolute (rev args) "") as [rp ->].
  eexists. split; [apply normalizeSegs_kept|reflexivity].
Qed.

(** Resolving a sanitized path against a resolved base appends its
    segments to those of the base. *)
Lemma resolve_base_sanitized (B R : list string) :
  Forall keptSegment B -> Forall goodSegment R ->
  Path.resolve cwd ["/" ++ JS.join "/" B; JS.join "/" R]
  = "/" ++ JS.join "/" (B ++ R).
Proof.
  intros HB HR. unfold Path.resolve. simpl rev. simpl app.
  set (base := "/" ++ JS.join "/" B).
  assert (Hbase : JS.startsWith base "/" = true)
    by apply startsWith_append.
  destruct R as [|p rest].
  - rewrite resolveLoop_skip, (resolveLoop_abs _ _ _ Hbase).
    rewrite app_nil_r. f_equal. apply normalize_base. assumption.
  - inversion HR; subst.
    destruct (join_good_head p rest) as (c & tail & E & Hc); [assumption|].
    rewrite resolveLoop_rel.
    + rewrite (resolveLoop_abs _ _ _ Hbase). f_equal.
      apply normalize_full; assumption.
    + rewrite E. discriminate.
    + rewrite E, startsWith_head. now apply isPathSep_slash.
Qed.

End Resolve.

(* ================================================================== *)
(** ** [safePathJoin] *)
(* ================================================================== *)

Lemma startsWith_refl (s : string) : JS.startsWith s s = true.
Proof.
  rewrite <- (append_nil_right s) at 1. apply startsWith_append.
Qed.

Lemma startsWith_cons (c : ascii) (s q : string) :
  JS.startsWith (String c s) (String c q) = JS.startsWith s q.
Proof.
  unfold JS.startsWith. cbn [prefix].
  destruct (ascii_dec c c); [reflexivity|congruence].
Qed.

Section SafePathJoinFacts.

Variable cwd : string.
Hypothesis cwd_absolute : JS.startsWith cwd "/" = true.

(** Below any base other than the root, the check of [safePathJoin]
    passes for every input: the result is the base itself when nothing
    survives sanitization, and otherwise the base, a separator and the
    sanitized path, whose segments are clean (none is [..]). *)
Lemma safePathJoin_accepts (baseDir relPath : string) :
  Path.resolve cwd [baseDir] <> "/" ->
  (sanitizePath relPath = ""
   /\ safePathJoin cwd baseDir relPath = Ok (Path.resolve cwd [baseDir]))
  \/ (sanitizePath relPath <> ""
      /\ safePathJoin cwd baseDir relPath
         = Ok (Path.resolve cwd [baseDir] ++ "/" ++ sanitizePath relPath)).
Proof.
  intros Hroot. unfold safePathJoin.
  destruct (resolve_shape cwd cwd_absolute [baseDir]) as (B & HB & EB).
  destruct (sanitizePath_shape relPath) as (R & HR & ER).
  rewrite EB in *. rewrite ER.
  rewrite (resolve_base_sanitized cwd B R HB HR).
  assert (HBne : B <> []) by (intros ->; now apply Hroot).
  unfold Path.sep. destruct R as [|p rest].
  - left. split; [reflexivity|]. rewrite app_nil_r.
    now rewrite startsWith_refl.
  - right. inversion HR as [|? ? [[Hp _] _] _]; subst.
    split; [now apply join_not_empty|].
    rewrite join_app by (assumption || discriminate).
    set (r := JS.join "/" (p :: rest)).
    replace (("/" ++ JS.join "/" B ++ "/" ++ r) ++ "/")
      with ((("/" ++ JS.join "/" B) ++ "/") ++ (r ++ "/"))
      by (now rewrite !append_assoc').
    rewrite startsWith_append. simpl negb. cbv iota.
    now rewrite !append_assoc'.
Qed.

(** With the root as base the check compares against [//] and rejects
    every path with a surviving segment. *)
Lemma safePathJoin_root (baseDir relPath : string) :
  Path.resolve cwd [baseDir] = "/" ->
  sanitizePath relPath <> "" ->
  safePathJoin cwd baseDir relPath
  = Throw (Error ("Unsafe path: " ++ relPath ++ " would escape base directory")).
Proof.
  intros Hroot Hne. unfold safePathJoin.
  destruct (sanitizePath_shape relPath) as (R & HR & ER).
  rewrite Hroot. rewrite ER in *.
  change "/" with ("/" ++ JS.join "/" []) at 1.
  rewrite (resolve_base_sanitized cwd [] R (Forall_nil _) HR).
  destruct R as [|p rest]; [now elim Hne|].
  inversion HR; subst.
  destruct (join_good_head p rest) as (c & tail & E & Hc); [assumption|].
  simpl app. rewrite E. unfold Path.sep.
  change (("/" ++ String c tail) ++ "/") with (String "/" (String c (tail ++ "/"))).
  change ("/" ++ "/") with (String "/" "/").
  rewrite startsWith_cons, startsWith_head, (isPathSep_slash _ Hc).
  reflexivity.
Qed.

(** The base the program uses, [OUTPUT_DIR], never resolves to the root. *)
Lemma output_dir_not_root : Path.resolve cwd [OUTPUT_DIR] <> "/".
Proof.
  unfold Path.resolve, OUTPUT_DIR. simpl rev. simpl app.
  rewrite resolveLoop_rel by (discriminate || reflexivity).
  rewrite (resolveLoop_abs _ _ _ cwd_absolute). simpl negb.
  unfold Path.normalizeString, Path.normalizeSegs.
  change (cwd ++ "/" ++ "out" ++ "/" ++ "") with (cwd ++ String "/" "out/").
  rewrite split_app_sep by reflexivity. rewrite fold_left_app.
  set (K := fold_left (Path.normStep false) (JS.split Path.isSlash cwd) []).
  assert (HK : Forall keptSegment K) by apply normalizeSegs_kept.
  change (fold_left (Path.normStep false) (JS.split Path.isSlash "out/") K)
    with (Path.normStep false (Path.normStep false K "out") "").
  rewrite (normStep_clean false K "out") by (repeat split; discriminate).
  change (Path.normStep false (K ++ ["out"]) "") with (K ++ ["out"])%list.
  intros E. injection E as E. apply join_kept_empty in E.
  - now destruct K.
  - apply Forall_app. split; [assumption|].
    constructor; [|constructor]. repeat split; discriminate.
Qed.

Lemma sanitizePath_segments_clean (relPath : string) :
Forall cleanSegment (pathSegments (sanitizePath relPath)).
Proof.
destruct (sanitizePath_shape relPath) as (segs & Hgood & ->).
rewrite pathSegments_join by assumption. now apply Forall_good_clean.
Qed.

End SafePathJoinFacts.

(** Traversal safety below a base other than the root: in a process
    with an absolute working directory, for every base directory that
    does not resolve to [/] and every input, [safePathJoin] returns
    without throwing, and the result is the resolved base itself or the
    base, a separator and a non-empty relative path none of whose
    segments is [..], [.] or empty. *)
Theorem safePathJoin_within_base (cwd baseDir relPath : string) :
  JS.startsWith cwd "/" = true ->
  Path.resolve cwd [baseDir] <> "/" ->
  exists full,
    safePathJoin cwd baseDir relPath = Ok full
    /\ (full = Path.resolve cwd [baseDir]
        \/ exists rel,
             rel <> "" /\ Forall cleanSegment (pathSegments rel)
             /\ full = Path.resolve cwd [baseDir] ++ "/" ++ rel).
Proof.
  intros Hcwd Hroot.
  destruct (safePathJoin_accepts cwd Hcwd baseDir relPath Hroot)
    as [[_ H]|[Hne H]]; eexists; (split; [exact H|]); [now left|].
  right. exists (sanitizePath relPath).
  repeat split; [assumption|apply sanitizePath_segments_clean].
Qed.

Lemma safePathJoin_within_base_witness :
  JS.startsWith "/work" "/" = true
  /\ Path.resolve "/work" ["out"] <> "/"
  /\ exists full,
       safePathJoin "/work" "out" "../../../etc/passwd" = Ok full
       /\ (full = Path.resolve "/work" ["out"]
           \/ exists rel,
                rel <> "" /\ Forall cleanSegment (pathSegments rel)
                /\ full = Path.resolve "/work" ["out"] ++ "/" ++ rel).
Proof.
  split; [reflexivity|]. split; [discriminate|].
  apply (safePathJoin_within_base "/work" "out" "../../../etc/passwd");
    [reflexivity|discriminate].
Defined.

(** Every destination the program computes lies in its output directory:
    with an absolute working directory, [safePathJoin OUTPUT_DIR] never
    throws, and returns the resolved output directory or a path made of
    it, a separator and the sanitized input. *)
Theorem safePathJoin_output_dir (cwd relPath : string) :
  JS.startsWith cwd "/" = true ->
  exists full,
    safePathJoin cwd OUTPUT_DIR relPath = Ok full
    /\ (full = Path.resolve cwd [OUTPUT_DIR]
        \/ (sanitizePath relPath <> ""
            /\ full = Path.resolve cwd [OUTPUT_DIR] ++ "/" ++ sanitizePath relPath)).
Proof.
  intros Hcwd.
  destruct (safePathJoin_accepts cwd Hcwd OUTPUT_DIR relPath
              (output_dir_not_root cwd Hcwd))
    as [[_ H]|[Hne H]]; eexists; (split; [exact H|]); [now left|now right].
Qed.

Lemma safePathJoin_output_dir_witness :
  JS.startsWith "/" "/" = true
  /\ exists full,
       safePathJoin "/" OUTPUT_DIR "..\..\secret/./x" = Ok full
       /\ (full = Path.resolve "/" [OUTPUT_DIR]
           \/ (sanitizePath "..\..\secret/./x" <> ""
               /\ full = Path.resolve "/" [OUTPUT_DIR] ++ "/"
                         ++ sanitizePath "..\..\secret/./x")).
Proof.
  split; [reflexivity|].
  apply (safePathJoin_output_dir "/" "..\..\secret/./x"). reflexivity.
Defined.

(** C1. With the file-system root as base directory the ['Unsafe path']
    branch is taken: [safePathJoin "/" "foo"] throws although [/foo] lies
    in the base; only the empty sanitized path is accepted there. *)
Theorem safePathJoin_root_base_throws (cwd : string) :
  safePathJoin cwd "/" "foo"
  = Throw (Error "Unsafe path: foo would escape base directory")
  /\ safePathJoin cwd "/" "" = Ok "/".
Proof. split; reflexivity. Qed.

(* ================================================================== *)
(** ** [urlToFilesystemPath] and [normalizeSourceFilePath] *)
(* ================================================================== *)

(** C7. [urlToFilesystemPath] replaces the prefix [webpack://] by
    [webpack/] and leaves the [./] behind it in place: on
    ["webpack://./src/index.js"] it returns ["webpack/./src/index.js"],
    not the ["webpack/src/index.js"] of its own header comment. *)
Theorem urlToFilesystemPath_webpack_example :
  urlToFilesystemPath "webpack://./src/index.js" = "webpack/./src/index.js".
Proof. reflexivity. Qed.

(** The other two protocol examples of the specification hold. *)
Lemma protocol_mapping_examples :
  urlToFilesystemPath "" = "anonymous.js"
  /\ urlToFilesystemPath "https://example.com/app.js" = "example.com/app.js"
  /\ normalizeSourceFilePath "https://example.com/src/app.js"
     = "example.com/src/app.js".
Proof. repeat split; reflexivity. Qed.

Lemma normalizeSourceFilePath_unfold (p : string) :
  normalizeSourceFilePath p
  = if Path.basename (strippedSourcePath p) =? ""
    then Path.join [strippedSourcePath p; "index.txt"]
    else strippedSourcePath p.
Proof. reflexivity. Qed.

Lemma stripLeadingSlashes_shape (s : string) :
  JS.stripLeadingSlashes s = ""
  \/ exists c t, JS.stripLeadingSlashes s = String c t
                 /\ Ascii.eqb c "/" = false.
Proof.
  induction s as [|c t IH]; simpl; [now left|].
  destruct (Ascii.eqb c "/") eqn:E; [assumption|].
  right. now exists c, t.
Qed.

Lemma filter_not_empty (l : list string) :
  Forall (fun seg => seg <> "") (filter (fun seg => negb (seg =? "")) l).
Proof.
  apply Forall_forall. intros seg H. apply filter_In in H as [_ H].
  destruct (String.eqb_spec seg ""); [discriminate|assumption].
Qed.

(** A path that starts with a character other than [/] has a basename. *)
Lemma basename_head (c : ascii) (t : string) :
  Ascii.eqb c "/" = false -> Path.basename (String c t) <> "".
Proof.
  intros Hc. unfold Path.basename.
  apply (Forall_last (fun seg => seg <> "")); [|apply filter_not_empty].
  cbn [JS.split]. change (Path.isSlash c) with (Ascii.eqb c "/"). rewrite Hc.
  destruct (JS.split Path.isSlash t); simpl; discriminate.
Qed.

(** The directory-completion step fires on the empty path only. *)
Lemma normalizeSourceFilePath_cases (p : string) :
  (strippedSourcePath p = "" /\ normalizeSourceFilePath p = "index.txt")
  \/ (strippedSourcePath p <> ""
      /\ normalizeSourceFilePath p = strippedSourcePath p).
Proof.
  rewrite normalizeSourceFilePath_unfold.
  assert (H := stripLeadingSlashes_shape).
  unfold strippedSourcePath at 1 3 5. cbv zeta.
  match goal with |- context [JS.stripLeadingSlashes ?x] => specialize (H x) end.
  fold (strippedSourcePath p) in *.
  destruct H as [E|(c & t & E & Hc)]; rewrite E.
  - left. split; reflexivity.
  - right. split; [discriminate|].
    destruct (String.eqb_spec (Path.basename (String c t)) "") as [B|_];
      [now apply basename_head in B|reflexivity].
Qed.



(** C8. A stripped path that ends in [/] without being empty is returned
    as it is: [path.basename] ignores the trailing separator, so the
    default file name is not appended to ["src/"] (nor to ["webpack/"],
    the stripped form of ["webpack://"]); only the empty path gets
    [index.txt]. *)
Theorem normalizeSourceFilePath_trailing_slash :
  strippedSourcePath "src/" = "src/"
  /\ normalizeSourceFilePath "src/" = "src/"
  /\ normalizeSourceFilePath "webpack://" = "webpack/"
  /\ normalizeSourceFilePath "" = "index.txt".
Proof. repeat split; reflexivity. Qed.

Lemma replacePrefix_absent (lit rep s : string) :
  JS.startsWith s lit = false -> JS.replacePrefix lit rep s = s.
Proof. unfold JS.replacePrefix. now intros ->. Qed.

Lemma stripLeadingSlashes_absent (s : string) :
  JS.startsWith s "/" = false -> JS.stripLeadingSlashes s = s.
Proof.
  destruct s as [|c t]; [reflexivity|].
  rewrite startsWith_head. simpl. now intros ->.
Qed.

(** A non-empty path without residual prefix is a fixed point. *)
Lemma normalizeSourceFilePath_fixed (p : string) :
  hasResidualPrefix p = false -> p <> "" -> normalizeSourceFilePath p = p.
Proof.
  unfold hasResidualPrefix. intros H Hne.
  repeat (apply orb_false_elim in H as [H ?]).
  assert (E : strippedSourcePath p = p).
  { unfold strippedSourcePath.
    rewrite (replacePrefix_absent "webpack://") by assumption.
    rewrite (replacePrefix_absent "rollup://") by assumption.
    rewrite (replacePrefix_absent "file://") by assumption.
    rewrite (replacePrefix_absent "./") by assumption.
    cbv zeta. replace (JS.isHttpScheme p) with false by congruence.
    now apply stripLeadingSlashes_absent. }
  destruct (normalizeSourceFilePath_cases p) as [[E0 _]|[_ ->]]; congruence.
Qed.

Lemma normalizeSourceFilePath_not_empty (p : string) :
  normalizeSourceFilePath p <> "".
Proof.
  destruct (normalizeSourceFilePath_cases p) as [[_ ->]|[Hne ->]];
    [discriminate|assumption].
Qed.

(** C5, as amended. Normalising twice gives what normalising once gives
    whenever the first result carries none of the prefixes the function
    rewrites ([webpack://], [rollup://], [file://], [./], [http://],
    [https://], [/]). *)
Theorem normalizeSourceFilePath_idempotent_on_normalized (p : string) :
  hasResidualPrefix (normalizeSourceFilePath p) = false ->
  normalizeSourceFilePath (normalizeSourceFilePath p)
  = normalizeSourceFilePath p.
Proof.
  intros H. apply normalizeSourceFilePath_fixed; [assumption|].
  apply normalizeSourceFilePath_not_empty.
Qed.

(** The amended law at the URL example of the specification. *)
Lemma normalizeSourceFilePath_idempotent_witness :
  hasResidualPrefix (normalizeSourceFilePath "https://example.com/src/app.js") = false
  /\ normalizeSourceFilePath
       (normalizeSourceFilePath "https://example.com/src/app.js")
     = normalizeSourceFilePath "https://example.com/src/app.js".
Proof.
  split; [reflexivity|].
  apply (normalizeSourceFilePath_idempotent_on_normalized
           "https://example.com/src/app.js").
  reflexivity.
Defined.

(** C5, as stated, fails: only one leading [./] is stripped, so a second
    pass still changes the result for ["././a"]; a protocol prefix behind
    a leading slash survives the first pass in the same way. *)
Lemma normalizeSourceFilePath_not_idempotent :
  normalizeSourceFilePath "././a" = "./a"
  /\ normalizeSourceFilePath (normalizeSourceFilePath "././a") = "a"
  /\ normalizeSourceFilePath "/webpack://x" = "webpack://x"
  /\ normalizeSourceFilePath (normalizeSourceFilePath "/webpack://x")
     = "webpack/x".
Proof. repeat split; reflexivity. Qed.

(* ================================================================== *)
(** ** [resolveSourceMapUrl] *)
(* ================================================================== *)

Lemma startsWith_iff (s pre : string) :
  JS.startsWith s pre = true <-> exists rest, s = pre ++ rest.
Proof.
  split.
  - revert s. unfold JS.startsWith.
    induction pre as [|a pre IH]; intros s H.
    + now exists s.
    + destruct s as [|b s]; [discriminate|]. cbn [prefix] in H.
      destruct (ascii_dec a b) as [<-|]; [|discriminate].
      destruct (IH s H) as [rest ->]. now exists rest.
  - intros [rest ->]. apply startsWith_append.
Qed.

(** Every HTTP(S) URL passes the test the function makes on [scriptUrl]. *)
Lemma isHttpScheme_startsWith_http (s : string) :
  JS.isHttpScheme s = true -> JS.startsWith s "http" = true.
Proof.
  unfold JS.isHttpScheme. intros H. apply orb_prop in H.
  apply startsWith_iff.
  destruct H as [H|H]; apply startsWith_iff in H as [rest ->];
    eexists; reflexivity.
Qed.

(** C6, as amended. An absolute-looking reference is returned unchanged;
    otherwise the reference is resolved against [scriptUrl] exactly when
    [scriptUrl] begins with the four characters [http] (which every
    [http://] and [https://] URL does), giving [null] where the [URL]
    constructor throws; in every remaining case the reference is returned
    unchanged. *)
Theorem resolveSourceMapUrl_by_http_prefix
    (URL_new : string -> option string -> option string)
    (mapRef scriptUrl : string) :
  (looksAbsolute mapRef = true ->
   resolveSourceMapUrl URL_new mapRef scriptUrl = Some mapRef)
  /\ (looksAbsolute mapRef = false ->
      ((exists rest, scriptUrl = "http" ++ rest) ->
       resolveSourceMapUrl URL_new mapRef scriptUrl
       = URL_new mapRef (Some scriptUrl))
      /\ (~ (exists rest, scriptUrl = "http" ++ rest) ->
          resolveSourceMapUrl URL_new mapRef scriptUrl = Some mapRef))
  /\ (JS.isHttpScheme scriptUrl = true -> exists rest, scriptUrl = "http" ++ rest).
Proof.
  unfold resolveSourceMapUrl. split; [|split].
  - now intros ->.
  - intros Habs. rewrite Habs. split; intros H.
    + apply startsWith_iff in H. now rewrite H.
    + destruct (JS.startsWith scriptUrl "http") eqn:E; [|reflexivity].
      apply startsWith_iff in E. contradiction.
  - intros H. now apply startsWith_iff, isHttpScheme_startsWith_http.
Qed.

(** On script URLs that carry an HTTP(S) scheme, and on those that do not
    begin with [http], the function is the [resolve] of the
    specification. *)
Lemma resolveSourceMapUrl_agrees_with_spec
    (URL_new : string -> option string -> option string)
    (mapRef scriptUrl : string) :
  JS.startsWith scriptUrl "http" = JS.isHttpScheme scriptUrl ->
  resolveSourceMapUrl URL_new mapRef scriptUrl
  = resolveSourceMapUrl_spec URL_new mapRef scriptUrl.
Proof.
  unfold resolveSourceMapUrl, resolveSourceMapUrl_spec. now intros ->.
Qed.

(** A script named by [//# sourceURL=httpClient.js] begins with [http]
    without being a URL: whatever [URL] constructor rejects a base that
    has no scheme makes the function return [null] for it. *)
Lemma resolveSourceMapUrl_http_named_script
    (URL_new : string -> option string -> option string) :
  (forall input base, JS.includes base ":" = false ->
                      URL_new input (Some base) = None) ->
  resolveSourceMapUrl URL_new "httpClient.js.map" "httpClient.js" = None.
Proof. intros H. unfold resolveSourceMapUrl. simpl. now apply H. Qed.

(** C6, as stated, fails: [scriptUrl = "httpClient.js"] is no HTTP(S)
    URL, so the specification returns the reference unchanged, while the
    function tries to resolve against it and returns [null]. *)
Lemma resolveSourceMapUrl_not_spec :
  JS.isHttpScheme "httpClient.js" = false
  /\ looksAbsolute "httpClient.js.map" = false
  /\ resolveSourceMapUrl_spec Demo.newURL "httpClient.js.map" "httpClient.js"
     = Some "httpClient.js.map"
  /\ resolveSourceMapUrl Demo.newURL "httpClient.js.map" "httpClient.js"
     = None.
Proof. repeat split; reflexivity. Qed.

(* ================================================================== *)
(** ** The path filter *)
(* ================================================================== *)

Lemma matchesFilter_iff (filters : list string) (p : string) :
  matchesFilter filters p = true
  <-> filters = [] \/ exists f, In f filters /\ JS.includes p f = true.
Proof.
  unfold matchesFilter. rewrite orb_true_iff, existsb_exists. split.
  - intros [H|H]; [left|now right].
    destruct filters; [reflexivity|discriminate].
  - intros [->|H]; [now left|now right].
Qed.

Lemma passesFilter_iff (filters : list string) (p : string) :
  passesFilter filters p = true
  <-> filters = []
      \/ exists f, In f filters
                   /\ (JS.includes p f = true \/ JS.includes ("/" ++ p) f = true).
Proof.
  unfold passesFilter.
  rewrite negb_true_iff, andb_false_iff, !negb_false_iff, !matchesFilter_iff.
  split.
  - intros [[H|(f & Hf & H)]|[H|(f & Hf & H)]]; auto; right; exists f; auto.
  - intros [H|(f & Hf & [H|H])]; [now left; left|left|right];
      right; exists f; auto.
Qed.

(* ================================================================== *)
(** ** The loop body of [extractOriginalSources] *)
(* ================================================================== *)

Section ExtractionFacts.

Variable w : World.
Variable filters : list string.

(** Once the content is chosen, nothing is fetched any more, the skip
    tallies stay, and at most one file is handed to [writeFileSync]: the
    chosen content, at the safe destination of a path that passed the
    filter. *)
Lemma saveEntry_effect (sourceFilePath : json) (content : string)
    (st : tally) :
  exists st',
    finalState (saveEntry w filters sourceFilePath content st) = Some st'
    /\ fetched (log st') = fetched (log st)
    /\ skippedNoMapRef st' = skippedNoMapRef st
    /\ skippedFetchFailed st' = skippedFetchFailed st
    /\ skippedInvalid st' = skippedInvalid st
    /\ ((written (log st') = written (log st)
         /\ savedCount st' = savedCount st)
        \/ exists p dest,
             sourceFilePath = JStr p
             /\ passesFilter filters (normalizeSourceFilePath p) = true
             /\ safePathJoin (cwd w) OUTPUT_DIR (normalizeSourceFilePath p)
                = Ok dest
             /\ written (log st') = (written (log st) ++ [(dest, content)])%list).
Proof.
  unfold saveEntry.
  destruct sourceFilePath as [| | |p| |];
    try (exists st; repeat split; now left).
  destruct (passesFilter filters (normalizeSourceFilePath p)) eqn:Hf;
    [|exists st; repeat split; now left].
  cbn [negb]. unfold bind, lift.
  destruct (safePathJoin (cwd w) OUTPUT_DIR (normalizeSourceFilePath p))
    as [dest|e] eqn:Hj; [|exists st; repeat split; now left].
  unfold ret, ensureDir.
  destruct (mkdirSync w (log st) (Path.dirname dest));
    [|eexists; repeat split; now left].
  unfold writeFile.
  destruct (writeFileSync w _ dest content); unfold modify;
    eexists; (repeat split; try reflexivity); right; exists p, dest;
    repeat split; reflexivity || assumption.
Qed.

(** The network branch, case by case. *)
Lemma networkContent_cases (base : option string) (sourceFilePath : json)
    (st : tally) :
  networkContent w base sourceFilePath st
  = match base with
    | None => Returns None st
    | Some b =>
        match Value.toStr sourceFilePath with
        | None => Returns None st
        | Some rel =>
            match URL_new w rel (Some b) with
            | None => Returns None st
            | Some u => Returns (fetchUrl w (log st) u) (logged (Fetch u) st)
            end
        end
    end.
Proof.
  unfold networkContent. destruct base as [b|]; [|reflexivity].
  destruct (Value.toStr sourceFilePath) as [rel|]; [|reflexivity].
  now destruct (URL_new w rel (Some b)).
Qed.

Lemma processSource_embedded (base : option string)
    (source : option json) (v : json) (st : tally) :
  v <> JNull ->
  processSource w filters base source (Some v) st
  = match Value.toStr v with
    | Some text => saveEntry w filters (Value.orEmptyString source) text st
    | None => Throws (TypeError "Cannot convert object to primitive value") st
    end.
Proof.
  intros Hv. unfold processSource, bind, entryContent.
  destruct v; try congruence;
    match goal with |- context [Value.toStr ?x] =>
      destruct (Value.toStr x); reflexivity end.
Qed.

Lemma processSource_network (base : option string)
    (source embedded : option json) (st : tally) :
  Value.notNullish embedded = false ->
  processSource w filters base source embedded st
  = match networkTarget w base source with
    | None => Returns tt st
    | Some u =>
        match fetchUrl w (log st) u with
        | Some content =>
            saveEntry w filters (Value.orEmptyString source) content
              (logged (Fetch u) st)
        | None => Returns tt (logged (Fetch u) st)
        end
    end.
Proof.
  intros Hn. unfold processSource, bind.
  assert (E : entryContent w base (Value.orEmptyString source) embedded st
              = networkContent w base (Value.orEmptyString source) st).
  { destruct embedded as [[]|]; try discriminate; reflexivity. }
  rewrite E, networkContent_cases. unfold networkTarget.
  destruct base as [b|]; [|reflexivity].
  destruct (Value.toStr (Value.orEmptyString source)) as [rel|]; [|reflexivity].
  destruct (URL_new w rel (Some b)) as [u|]; [|reflexivity].
  now destruct (fetchUrl w (log st) u).
Qed.

(** One iteration leaves the skip tallies alone and writes at most one
    file, at the safe destination of a path that passed the filter. *)
Lemma processSource_effect (base : option string)
    (source embedded : option json) (st : tally) :
  exists st',
    finalState (processSource w filters base source embedded st) = Some st'
    /\ skippedNoMapRef st' = skippedNoMapRef st
    /\ skippedFetchFailed st' = skippedFetchFailed st
    /\ skippedInvalid st' = skippedInvalid st
    /\ ((written (log st') = written (log st)
         /\ savedCount st' = savedCount st)
        \/ exists p dest content,
             Value.orEmptyString source = JStr p
             /\ passesFilter filters (normalizeSourceFilePath p) = true
             /\ safePathJoin (cwd w) OUTPUT_DIR (normalizeSourceFilePath p)
                = Ok dest
             /\ written (log st') = (written (log st) ++ [(dest, content)])%list).
Proof.
  destruct (Value.notNullish embedded) eqn:Hn.
  - destruct embedded as [v|]; [|discriminate].
    rewrite processSource_embedded by (intros ->; discriminate).
    destruct (Value.toStr v) as [text|];
      [|exists st; repeat split; now left].
    destruct (saveEntry_effect (Value.orEmptyString source) text st)
      as (st' & Hf & _ & H1 & H2 & H3 & [H|(p & dest & H)]);
      exists st'; repeat split; trivial; [now left|].
    right. now exists p, dest, text.
  - rewrite processSource_network by assumption.
    destruct (networkTarget w base source) as [u|];
      [|exists st; repeat split; now left].
    destruct (fetchUrl w (log st) u) as [content|];
      [|eexists; repeat split; now left].
    destruct (saveEntry_effect (Value.orEmptyString source) content
                (logged (Fetch u) st))
      as (st' & Hf & _ & H1 & H2 & H3 & [H|(p & dest & H)]);
      exists st'; repeat split; trivial; [now left|].
    right. now exists p, dest, content.
Qed.

End ExtractionFacts.

(** C9. With the filter list [["/src/"]] the normalized path
    ["example.com/lib/util.js"] is excluded and ["example.com/src/util.js"]
    is included; an empty list keeps every path; a path passes exactly
    when the list is empty or some filter is a substring of the path or of
    the path prefixed with [/]; and an iteration of the extraction loop
    hands a file to [writeFileSync] only for a source path whose
    normalized form passes. *)
Theorem filter_semantics :
  PATH_FILTERS = ["/src/"]
  /\ passesFilter ["/src/"] "example.com/lib/util.js" = false
  /\ passesFilter ["/src/"] "example.com/src/util.js" = true
  /\ (forall p, passesFilter [] p = true)
  /\ (forall filters p,
        passesFilter filters p = true
        <-> filters = []
            \/ exists f, In f filters
                         /\ (JS.includes p f = true
                             \/ JS.includes ("/" ++ p) f = true))
  /\ (forall w filters base source embedded st,
        exists st',
          finalState (processSource w filters base source embedded st) = Some st'
          /\ (written (log st') = written (log st)
              \/ exists p,
                   Value.orEmptyString source = JStr p
                   /\ passesFilter filters (normalizeSourceFilePath p) = true)).
Proof.
  split; [reflexivity|]. split; [reflexivity|]. split; [reflexivity|].
  split; [reflexivity|]. split; [apply passesFilter_iff|].
  intros w filters base source embedded st.
  destruct (processSource_effect w filters base source embedded st)
      as (st' & Hf & _ & _ & _ & [[H _]|(p & dest & content & Hp & Hpass & _)]);
    exists st'; split; trivial; [now left|].
  right. now exists p.
Qed.

Lemma notNullish_some (v : json) :
  Value.notNullish (Some v) = false -> v = JNull.
Proof. destruct v; simpl; congruence. Qed.







(* ================================================================== *)
(** ** Completion of [extractOriginalSources] *)
(* ================================================================== *)

(** A sourcemap whose body parses to [null] passes the [JSON.parse]
    guard; reading [sourceMap.sources] then throws outside every [try]. *)
Lemma processScript_null_sourcemap (w : World) (filters : list string)
    (metadata : ScriptRecord) (st : tally) (sourceMapUrl body : string) :
  sourceMapURL metadata <> "" ->
  resolveSourceMapUrl (URL_new w) (sourceMapURL metadata) (url metadata)
  = Some sourceMapUrl ->
  sourceMapUrl <> "" ->
  fetchUrl w (log st) sourceMapUrl = Some body ->
  JSON_parse w body = Some JNull ->
  processScript w filters metadata st
  = Throws (TypeError "Cannot read properties of null (reading 'sources')")
      (logged (Fetch sourceMapUrl) st).
Proof.
  intros Href Hres Hurl Hfetch Hparse. unfold processScript.
  destruct (String.eqb_spec (sourceMapURL metadata) ""); [contradiction|].
  rewrite Hres.
  destruct (String.eqb_spec sourceMapUrl ""); [contradiction|].
  unfold bind, tryFetch. rewrite Hfetch. cbn [log logged].
  now rewrite Hparse.
Qed.

(** The exception of one script ends the whole loop: the scripts behind
    it are not processed and no count is returned. *)
Lemma extractOriginalSources_aborts (w : World) (filters : list string)
    (scriptId : string) (metadata : ScriptRecord)
    (rest : list (string * ScriptRecord)) (history : list event)
    (e : exn) (st : tally) :
  processScript w filters metadata
    {| savedCount := 0; skippedNoMapRef := 0; skippedFetchFailed := 0;
       skippedInvalid := 0; log := history |} = Throws e st ->
  extractOriginalSources w filters ((scriptId, metadata) :: rest) history
  = Throws e st.
Proof.
  intros H. unfold extractOriginalSources. cbn [scriptsLoop].
  unfold bind at 1. unfold bind at 1. now rewrite H.
Qed.

(** C2. [extractOriginalSources] does not always return a count: a first
    script whose sourcemap body is the JSON text [null] makes it throw a
    [TypeError], and the well-formed sourcemap of the second script is
    never fetched; so does a [mkdir] that fails because an earlier source
    entry was written where a later one needs a directory. *)
Theorem extractOriginalSources_throws :
  extractOriginalSources (Demo.world Demo.served) PATH_FILTERS
    [("1", {| url := "https://cdn.test/app.js"; sourceMapURL := "null.js.map" |});
     ("2", {| url := "https://cdn.test/app.js"; sourceMapURL := "app.js.map" |})]
    []
  = Throws (TypeError "Cannot read properties of null (reading 'sources')")
      {| savedCount := 0; skippedNoMapRef := 0; skippedFetchFailed := 0;
         skippedInvalid := 0;
         log := [Fetch "https://cdn.test/null.js.map"] |}
  /\ extractOriginalSources (Demo.world Demo.served) PATH_FILTERS
       [("1", {| url := "https://cdn.test/app.js"; sourceMapURL := "nested.js.map" |})]
       []
     = Throws (Error "mkdir failed: /work/out/src/a.js")
         {| savedCount := 1; skippedNoMapRef := 0; skippedFetchFailed := 0;
            skippedInvalid := 0;
            log := [Mkdir "/work/out/src/a.js";
                    WriteFile "/work/out/src/a.js" "A";
                    Mkdir "/work/out/src";
                    Fetch "https://cdn.test/nested.js.map"] |}.
Proof. split; reflexivity. Qed.

(** The end-to-end scenario of the specification, with every path kept:
    the embedded entry is written under [_up_/shared], the [null] entry is
    fetched and written, and [2] is returned. *)
Lemma extractOriginalSources_scenario :
  extractOriginalSources (Demo.world Demo.served) []
    [("1", {| url := "https://cdn.test/app.js"; sourceMapURL := "app.js.map" |})]
    []
  = Returns 2
      {| savedCount := 2; skippedNoMapRef := 0; skippedFetchFailed := 0;
         skippedInvalid := 0;
         log := [WriteFile "/work/out/b.js" "content-B";
                 Mkdir "/work/out";
                 Fetch "https://cdn.test/b.js";
                 WriteFile "/work/out/_up_/shared/a.js" "content-A";
                 Mkdir "/work/out/_up_/shared";
                 Fetch "https://cdn.test/app.js.map"] |}.
Proof. reflexivity. Qed.


(* ================================================================== *)
(** ** Further properties of the path functions *)
(* ================================================================== *)

Lemma includes_cons (c : ascii) (s pat : string) :
  JS.includes s pat = true -> JS.includes (String c s) pat = true.
Proof. intros H. cbn [JS.includes]. rewrite H. apply orb_true_r. Qed.

(** A substring stays one when the string is extended at the front. *)
Lemma includes_app_front (a s pat : string) :
  JS.includes s pat = true -> JS.includes (a ++ s) pat = true.
Proof.
  intros H. induction a as [|c a IH]; [assumption|].
  simpl append. now apply includes_cons.
Qed.

Lemma matchesFilter_prefixed (filters : list string) (a p : string) :
  matchesFilter filters p = true -> matchesFilter filters (a ++ p) = true.
Proof.
  rewrite !matchesFilter_iff. intros [H|(f & Hf & H)]; [now left|].
  right. exists f. split; [assumption|]. now apply includes_app_front.
Qed.

(** The filter of the extraction loop is decided by the path prefixed
    with [/] alone: a filter found in the bare normalized path is found
    in the prefixed one as well, so the first test adds nothing. *)
Theorem passesFilter_is_prefixed_test (filters : list string) (p : string) :
  passesFilter filters p = matchesFilter filters ("/" ++ p).
Proof.
  unfold passesFilter.
  destruct (matchesFilter filters p) eqn:E.
  - now rewrite (matchesFilter_prefixed filters "/" p E).
  - now destruct (matchesFilter filters ("/" ++ p)).
Qed.

Lemma noLineTerminator_app (a b : string) :
  JS.noLineTerminator a = true -> JS.noLineTerminator b = true ->
  JS.noLineTerminator (a ++ b) = true.
Proof.
  intros Ha Hb. induction a as [|c a IH]; [assumption|].
  simpl in *. apply andb_prop in Ha as [Hc Ha]. now rewrite Hc, IH.
Qed.

Lemma noLineTerminator_drop (n : nat) (s : string) :
  JS.noLineTerminator s = true -> JS.noLineTerminator (JS.drop n s) = true.
Proof.
  revert s. induction n as [|n IH]; intros s H; [assumption|].
  destruct s as [|c t]; [reflexivity|]. simpl in *.
  apply andb_prop in H as [_ H]. now apply IH.
Qed.

Lemma noLineTerminator_replacePrefix (lit rep s : string) :
  JS.noLineTerminator rep = true -> JS.noLineTerminator s = true ->
  JS.noLineTerminator (JS.replacePrefix lit rep s) = true.
Proof.
  intros Hr Hs. unfold JS.replacePrefix. destruct (JS.startsWith s lit);
    [|assumption].
  apply noLineTerminator_app; [assumption|now apply noLineTerminator_drop].
Qed.

Lemma includes_single_cons (c d : ascii) (s : string) :
  Ascii.eqb c d = false ->
  JS.includes (String c s) (String d "") = JS.includes s (String d "").
Proof.
  intros H. cbn [JS.includes]. unfold JS.startsWith at 1. cbn [prefix].
  destruct (ascii_dec d c) as [->|_]; [|reflexivity].
  now rewrite Ascii.eqb_refl in H.
Qed.

(** Without line terminators the pattern matches at the first [?] or [#],
    so none of them is left. *)
Lemma stripQueryAndFragment_clean (s : string) :
  JS.noLineTerminator s = true ->
  JS.includes (JS.stripQueryAndFragment s) "?" = false
  /\ JS.includes (JS.stripQueryAndFragment s) "#" = false.
Proof.
  induction s as [|c t IH]; intros H; [split; reflexivity|].
  simpl in H. apply andb_prop in H as [_ Ht]. cbn [JS.stripQueryAndFragment].
  rewrite Ht, andb_true_r.
  destruct (Ascii.eqb c "?") eqn:E1; [split; reflexivity|].
  destruct (Ascii.eqb c "#") eqn:E2; [split; reflexivity|].
  cbn [orb]. rewrite !includes_single_cons by assumption. now apply IH.
Qed.

(** [urlToFilesystemPath] never returns the empty string, and for a URL
    without line terminators its result holds neither [?] nor [#]. *)
Theorem urlToFilesystemPath_no_query (u : string) :
  JS.noLineTerminator u = true ->
  urlToFilesystemPath u <> ""
  /\ JS.includes (urlToFilesystemPath u) "?" = false
  /\ JS.includes (urlToFilesystemPath u) "#" = false.
Proof.
  intros H. unfold urlToFilesystemPath.
  destruct (u =? ""); [repeat split; discriminate|].
  cbv zeta.
  match goal with |- context [JS.stripQueryAndFragment ?x] =>
    assert (Hx : JS.noLineTerminator x = true) end.
  { unfold JS.stripHttpScheme, JS.replacePrefix_ci.
    set (x := JS.replacePrefix "file://" "file/" _).
    assert (Hx : JS.noLineTerminator x = true)
      by (repeat apply noLineTerminator_replacePrefix; trivial).
    assert (Hy : JS.noLineTerminator
                   (if JS.startsWith_ci x "vm://"
                    then "vm/" ++ JS.drop (String.length "vm://") x else x) = true).
    { destruct (JS.startsWith_ci x "vm://"); [|assumption].
      apply noLineTerminator_app; [reflexivity|].
      now apply noLineTerminator_drop. }
    repeat match goal with
           | |- context [if ?b then _ else _] => destruct b
           end; trivial; now apply noLineTerminator_drop. }
  destruct (stripQueryAndFragment_clean _ Hx) as [Hq Hf].
  match goal with |- context [?r =? ""] =>
    destruct (String.eqb_spec r "") as [E|E] end.
  - repeat split; discriminate.
  - repeat split; assumption.
Qed.

Lemma urlToFilesystemPath_no_query_witness :
  JS.noLineTerminator "https://example.com/app.js?v=1#top" = true
  /\ urlToFilesystemPath "https://example.com/app.js?v=1#top" <> ""
  /\ JS.includes (urlToFilesystemPath "https://example.com/app.js?v=1#top") "?" = false
  /\ JS.includes (urlToFilesystemPath "https://example.com/app.js?v=1#top") "#" = false.
Proof.
  split; [reflexivity|].
  apply (urlToFilesystemPath_no_query "https://example.com/app.js?v=1#top").
  reflexivity.
Defined.

(** [normalizeSourceFilePath] returns a relative path: its result is
    never empty and never begins with [/]. *)
Theorem normalizeSourceFilePath_relative (p : string) :
  normalizeSourceFilePath p <> ""
  /\ JS.startsWith (normalizeSourceFilePath p) "/" = false.
Proof.
  split; [apply normalizeSourceFilePath_not_empty|].
  destruct (normalizeSourceFilePath_cases p) as [[_ ->]|[Hne ->]];
    [reflexivity|].
  unfold strippedSourcePath in *. cbv zeta in *.
  match goal with |- context [JS.stripLeadingSlashes ?x] =>
    destruct (stripLeadingSlashes_shape x) as [E|(c & t & E & Hc)] end;
    rewrite E in *; [congruence|].
  now rewrite startsWith_head.
Qed.



(* ================================================================== *)
(** ** [decodeDataUrl] and [fetchUrl] *)
(* ================================================================== *)

Lemma cutAtComma_app (header payload : string) :
  noSep (fun c => Ascii.eqb c ",") header = true ->
  cutAtComma (header ++ "," ++ payload) = Some (header, payload).
Proof.
  change (header ++ "," ++ payload) with (header ++ String "," payload).
  induction header as [|c t IH]; intros H; [reflexivity|].
  simpl in H. apply andb_prop in H as [Hc Ht].
  simpl. destruct (Ascii.eqb c ","); [discriminate|]. now rewrite IH.
Qed.

Lemma matchDataUrl_data (header payload : string) :
  noSep (fun c => Ascii.eqb c ",") header = true ->
  JS.noLineTerminator payload = true ->
  matchDataUrl ("data:" ++ header ++ "," ++ payload)
  = Some (endsWith_ci header ";base64", payload).
Proof.
  intros Hh Hp. unfold matchDataUrl.
  assert (E : JS.startsWith_ci ("data:" ++ header ++ "," ++ payload) "data:"
              = true).
  { cbn -[JS.lower]. now destruct (header ++ String "," payload). }
  rewrite E.
  change (JS.drop 5 ("data:" ++ header ++ "," ++ payload))
    with (header ++ "," ++ payload).
  now rewrite cutAtComma_app, Hp.
Qed.

Section DataFetchingFacts.

Variable base64Decode : string -> string.
Variable decodeURIComponent : string -> option string.
Variable URL_new : string -> option string -> option string.
Variable get : bool -> string -> reply.

Lemma decodeDataUrl_data (header payload : string) :
  noSep (fun c => Ascii.eqb c ",") header = true ->
  JS.noLineTerminator payload = true ->
  decodeDataUrl base64Decode decodeURIComponent
    ("data:" ++ header ++ "," ++ payload)
  = if endsWith_ci header ";base64" then Ok (Some (base64Decode payload))
    else match decodeURIComponent payload with
         | Some text => Ok (Some text)
         | None => Throw (Error "URI malformed")
         end.
Proof.
  intros Hh Hp. unfold decodeDataUrl. now rewrite matchDataUrl_data.
Qed.

Lemma fetchUrl_impl_data (fuel : nat) (header payload : string) :
  noSep (fun c => Ascii.eqb c ",") header = true ->
  JS.noLineTerminator payload = true ->
  fetchUrl_impl base64Decode decodeURIComponent URL_new get (S fuel)
    ("data:" ++ header ++ "," ++ payload)
  = if endsWith_ci header ";base64" then Resolved (base64Decode payload)
    else match decodeURIComponent payload with
         | Some text => Resolved text
         | None => Rejected (Error "URI malformed")
         end.
Proof.
  intros Hh Hp. cbn [fetchUrl_impl].
  change (JS.startsWith ("data:" ++ header ++ "," ++ payload) "data:")
    with (JS.startsWith ("data:" ++ (header ++ "," ++ payload)) "data:").
  rewrite startsWith_append, decodeDataUrl_data by assumption.
  destruct (endsWith_ci header ";base64"); [reflexivity|].
  now destruct (decodeURIComponent payload).
Qed.

(** Following a chain of [n] redirects costs [n] calls and gives what the
    last URL of the chain gives. *)
Lemma fetchUrl_impl_redirects (url final : string) (n : nat) :
  redirects URL_new get url final n ->
  forall k,
    fetchUrl_impl base64Decode decodeURIComponent URL_new get (n + k) url
    = fetchUrl_impl base64Decode decodeURIComponent URL_new get k final.
Proof.
  induction 1 as [|url href next final statusCode location body n
                   Hdata Hhref Hget Hredir Hnext _ IH]; intros k;
    [reflexivity|].
  cbn [Nat.add fetchUrl_impl]. rewrite Hdata, Hhref, Hget, Hredir, Hnext.
  apply IH.
Qed.

Lemma fetchUrl_impl_resolved (fuel : nat) (url buffer : string) :
  fetchUrl_impl base64Decode decodeURIComponent URL_new get fuel url
  = Resolved buffer ->
  (exists dataUrl,
      JS.startsWith dataUrl "data:" = true
      /\ decodeDataUrl base64Decode decodeURIComponent dataUrl
         = Ok (Some buffer))
  \/ (exists http href location, get http href = Response 200 location buffer).
Proof.
  revert url. induction fuel as [|fuel IH]; intros url H; [discriminate|].
  cbn [fetchUrl_impl] in H.
  destruct (JS.startsWith url "data:") eqn:Hdata.
  - left. exists url. split; [assumption|].
    destruct (decodeDataUrl base64Decode decodeURIComponent url)
      as [[b|]|e]; try discriminate.
    now injection H as ->.
  - destruct (URL_new url None) as [href|]; [|discriminate].
    destruct (get (JS.startsWith href "http:") href)
      as [statusCode location body|] eqn:Hget; [|discriminate].
    destruct (isRedirect statusCode location).
    + destruct (URL_new _ (Some url)) as [next|]; [|discriminate].
      now apply IH in H.
    + destruct (Nat.eqb_spec statusCode 200) as [->|_]; [|discriminate].
      injection H as ->. right. now exists (JS.startsWith href "http:"), href, location.
Qed.

Lemma fetchUrl_impl_loop (url href location body : string)
    (statusCode fuel : nat) :
  JS.startsWith url "data:" = false ->
  URL_new url None = Some href ->
  get (JS.startsWith href "http:") href
  = Response statusCode (Some location) body ->
  isRedirect statusCode (Some location) = true ->
  URL_new location (Some url) = Some url ->
  fetchUrl_impl base64Decode decodeURIComponent URL_new get fuel url = Pending.
Proof.
  intros Hdata Hhref Hget Hredir Hnext.
  induction fuel as [|fuel IH]; [reflexivity|].
  cbn [fetchUrl_impl]. now rewrite Hdata, Hhref, Hget, Hredir, Hnext.
Qed.

End DataFetchingFacts.

(** [decodeDataUrl] cuts a data URL at its first comma: for a header
    without comma and a payload without line terminator, the payload,
    later commas included, is decoded as base64 exactly when the header
    ends with [;base64] (in any letter case) and by [decodeURIComponent]
    otherwise, whose [URIError] is thrown on. *)
Theorem decodeDataUrl_first_comma
    (base64Decode : string -> string)
    (decodeURIComponent : string -> option string)
    (header payload : string) :
  noSep (fun c => Ascii.eqb c ",") header = true ->
  JS.noLineTerminator payload = true ->
  decodeDataUrl base64Decode decodeURIComponent
    ("data:" ++ header ++ "," ++ payload)
  = if endsWith_ci header ";base64" then Ok (Some (base64Decode payload))
    else match decodeURIComponent payload with
         | Some text => Ok (Some text)
         | None => Throw (Error "URI malformed")
         end.
Proof. apply decodeDataUrl_data. Qed.

Lemma decodeDataUrl_first_comma_witness :
  noSep (fun c => Ascii.eqb c ",") "application/json;BASE64" = true
  /\ JS.noLineTerminator "e30=,x" = true
  /\ decodeDataUrl (fun s => s) Some ("data:" ++ "application/json;BASE64" ++ "," ++ "e30=,x")
     = Ok (Some "e30=,x").
Proof.
  split; [reflexivity|]. split; [reflexivity|].
  exact (decodeDataUrl_first_comma (fun s => s) Some
           "application/json;BASE64" "e30=,x" eq_refl eq_refl).
Defined.

(** A data URL is settled by [fetchUrl] without any request: whatever the
    network and the [URL] constructor do, a URL made of [data:], a header
    without comma, a comma and a payload without line terminator resolves
    with the decoded payload, or rejects with the [URIError] of
    [decodeURIComponent]. *)
Theorem fetchUrl_data_url_offline
    (base64Decode : string -> string)
    (decodeURIComponent : string -> option string)
    (URL_new : string -> option string -> option string)
    (get : bool -> string -> reply)
    (fuel : nat) (header payload : string) :
  noSep (fun c => Ascii.eqb c ",") header = true ->
  JS.noLineTerminator payload = true ->
  fetchUrl_impl base64Decode decodeURIComponent URL_new get (S fuel)
    ("data:" ++ header ++ "," ++ payload)
  = if endsWith_ci header ";base64" then Resolved (base64Decode payload)
    else match decodeURIComponent payload with
         | Some text => Resolved text
         | None => Rejected (Error "URI malformed")
         end.
Proof. apply fetchUrl_impl_data. Qed.

Lemma fetchUrl_data_url_offline_witness :
  noSep (fun c => Ascii.eqb c ",") "text/plain" = true
  /\ JS.noLineTerminator "a%20b" = true
  /\ fetchUrl_impl (fun s => s) (fun _ => None) Demo.newURL demoGet 1
       ("data:" ++ "text/plain" ++ "," ++ "a%20b")
     = Rejected (Error "URI malformed").
Proof.
  split; [reflexivity|]. split; [reflexivity|].
  exact (fetchUrl_data_url_offline (fun s => s) (fun _ => None)
           Demo.newURL demoGet 0 "text/plain" "a%20b" eq_refl eq_refl).
Defined.

(** [fetchUrl] follows redirects to the end: when [url] leads through [n]
    redirects to a URL answered with status 200, it resolves with the
    body of that answer as soon as more than [n] redirects may be
    followed. *)
Theorem fetchUrl_follows_redirects
    (base64Decode : string -> string)
    (decodeURIComponent : string -> option string)
    (URL_new : string -> option string -> option string)
    (get : bool -> string -> reply)
    (url final href : string) (location : option string) (body : string)
    (n fuel : nat) :
  redirects URL_new get url final n ->
  JS.startsWith final "data:" = false ->
  URL_new final None = Some href ->
  get (JS.startsWith href "http:") href = Response 200 location body ->
  n < fuel ->
  fetchUrl_impl base64Decode decodeURIComponent URL_new get fuel url
  = Resolved body.
Proof.
  intros Hchain Hdata Hhref Hget Hfuel.
  replace fuel with (n + S (fuel - S n)) by lia.
  rewrite (fetchUrl_impl_redirects base64Decode decodeURIComponent
             URL_new get url final n Hchain).
  cbn [fetchUrl_impl]. now rewrite Hdata, Hhref, Hget.
Qed.

Lemma demo_redirects :
  redirects Demo.newURL demoGet "https://a.test/old" "https://a.test/new" 1.
Proof.
  apply (redirects_step Demo.newURL demoGet "https://a.test/old"
           "https://a.test/old" "https://a.test/new" "https://a.test/new"
           301 "new" "" 0); try reflexivity.
  apply redirects_here.
Defined.

Lemma fetchUrl_follows_redirects_witness :
  redirects Demo.newURL demoGet "https://a.test/old" "https://a.test/new" 1
  /\ 1 < 2
  /\ fetchUrl_impl (fun s => s) Some Demo.newURL demoGet 2 "https://a.test/old"
     = Resolved "served".
Proof.
  split; [exact demo_redirects|]. split; [lia|].
  exact (fetchUrl_follows_redirects (fun s => s) Some Demo.newURL demoGet
           "https://a.test/old" "https://a.test/new" "https://a.test/new"
           None "served" 1 2 demo_redirects eq_refl eq_refl eq_refl
           (le_n 2)).
Defined.

(** [fetchUrl] resolves only with a decoded data URL or with the body of
    a response whose status is 200: no other status, and no redirect
    without a usable [Location], ever yields content. *)
Theorem fetchUrl_resolves_only_200
    (base64Decode : string -> string)
    (decodeURIComponent : string -> option string)
    (URL_new : string -> option string -> option string)
    (get : bool -> string -> reply)
    (fuel : nat) (url buffer : string) :
  fetchUrl_impl base64Decode decodeURIComponent URL_new get fuel url
  = Resolved buffer ->
  (exists dataUrl,
      JS.startsWith dataUrl "data:" = true
      /\ decodeDataUrl base64Decode decodeURIComponent dataUrl
         = Ok (Some buffer))
  \/ (exists http href location, get http href = Response 200 location buffer).
Proof. apply fetchUrl_impl_resolved. Qed.

Lemma fetchUrl_resolves_only_200_witness :
  fetchUrl_impl (fun s => s) Some Demo.newURL demoGet 2 "https://a.test/old"
  = Resolved "served"
  /\ ((exists dataUrl,
         JS.startsWith dataUrl "data:" = true
         /\ decodeDataUrl (fun s => s) Some dataUrl = Ok (Some "served"))
      \/ (exists http href location,
             demoGet http href = Response 200 location "served")).
Proof.
  split; [reflexivity|].
  exact (fetchUrl_resolves_only_200 (fun s => s) Some Demo.newURL demoGet
           2 "https://a.test/old" "served" eq_refl).
Defined.

(** [fetchUrl] puts no bound on redirects: a URL that redirects to itself
    is not settled, however many redirects are followed. *)
Theorem fetchUrl_redirect_loop_pending
    (base64Decode : string -> string)
    (decodeURIComponent : string -> option string)
    (URL_new : string -> option string -> option string)
    (get : bool -> string -> reply)
    (url href location body : string) (statusCode fuel : nat) :
  JS.startsWith url "data:" = false ->
  URL_new url None = Some href ->
  get (JS.startsWith href "http:") href
  = Response statusCode (Some location) body ->
  isRedirect statusCode (Some location) = true ->
  URL_new location (Some url) = Some url ->
  fetchUrl_impl base64Decode decodeURIComponent URL_new get fuel url = Pending.
Proof. apply fetchUrl_impl_loop. Qed.

Lemma fetchUrl_redirect_loop_pending_witness :
  JS.startsWith "https://a.test/loop" "data:" = false
  /\ isRedirect 302 (Some "loop") = true
  /\ Demo.newURL "loop" (Some "https://a.test/loop") = Some "https://a.test/loop"
  /\ fetchUrl_impl (fun s => s) Some Demo.newURL demoGet 1000
       "https://a.test/loop" = Pending.
Proof.
  split; [reflexivity|]. split; [reflexivity|]. split; [reflexivity|].
  exact (fetchUrl_redirect_loop_pending (fun s => s) Some Demo.newURL demoGet
           "https://a.test/loop" "https://a.test/loop" "loop" "" 302 1000
           eq_refl eq_refl eq_refl eq_refl eq_refl).
Defined.

(* ================================================================== *)
(** ** The script registry *)
(* ================================================================== *)

Lemma mapGet_mapSet (k k' : string) (v : ScriptRecord)
    (m : list (string * ScriptRecord)) :
  mapGet k (mapSet k' v m) = if k' =? k then Some v else mapGet k m.
Proof.
  induction m as [|[k0 v0] m IH]; simpl.
  - reflexivity.
  - destruct (String.eqb_spec k0 k') as [->|Hne]; simpl.
    + now destruct (k' =? k).
    + destruct (String.eqb_spec k0 k) as [->|Hk].
      * destruct (String.eqb_spec k' k) as [->|_]; [congruence|reflexivity].
      * assumption.
Qed.

Lemma keys_mapSet (k : string) (v : ScriptRecord)
    (m : list (string * ScriptRecord)) :
  map fst (mapSet k v m)
  = if existsb (String.eqb k) (map fst m) then map fst m
    else (map fst m ++ [k])%list.
Proof.
  induction m as [|[k0 v0] m IH]; simpl; [reflexivity|].
  rewrite (String.eqb_sym k k0).
  destruct (String.eqb_spec k0 k) as [->|Hne]; simpl; [reflexivity|].
  rewrite IH. now destruct (existsb (String.eqb k) (map fst m)).
Qed.

Lemma existsb_eqb_In (k : string) (l : list string) :
  existsb (String.eqb k) l = true <-> In k l.
Proof.
  rewrite existsb_exists. split.
  - intros (x & Hx & E). apply String.eqb_eq in E. now subst.
  - intros H. exists k. split; [assumption|apply String.eqb_refl].
Qed.

Lemma NoDup_snoc (k : string) (l : list string) :
  NoDup l -> ~ In k l -> NoDup (l ++ [k]).
Proof.
  induction l as [|x l IH]; intros Hl Hk; simpl.
  - constructor; [intros []|constructor].
  - inversion Hl; subst. constructor.
    + rewrite in_app_iff. intros [H|[->|[]]]; [contradiction|].
      apply Hk. now left.
    + apply IH; [assumption|]. intros H. apply Hk. now right.
Qed.

Lemma keys_mapSet_NoDup (k : string) (v : ScriptRecord)
    (m : list (string * ScriptRecord)) :
  NoDup (map fst m) -> NoDup (map fst (mapSet k v m)).
Proof.
  intros H. rewrite keys_mapSet.
  destruct (existsb (String.eqb k) (map fst m)) eqn:E; [assumption|].
  apply NoDup_snoc; [assumption|].
  intros Hin. apply existsb_eqb_In in Hin. congruence.
Qed.

Lemma keys_mapSet_length (k : string) (v : ScriptRecord)
    (m : list (string * ScriptRecord)) :
  List.length (mapSet k v m) <= S (List.length m).
Proof.
  induction m as [|[k0 v0] m IH]; simpl; [lia|].
  destruct (k0 =? k); simpl; lia.
Qed.

Lemma collect_from (events : list scriptParsed)
    (m : list (string * ScriptRecord)) (k : string) :
  NoDup (map fst m) ->
  NoDup (map fst (fold_left onScriptParsed events m))
  /\ mapGet k (fold_left onScriptParsed events m)
     = match lastRecord k events with
       | Some r => Some r
       | None => mapGet k m
       end
  /\ List.length (fold_left onScriptParsed events m)
     <= List.length m + List.length events.
Proof.
  revert m. induction events as [|e events IH]; intros m Hm; simpl.
  - repeat split; [assumption|lia].
  - destruct (IH (onScriptParsed m e)) as (H1 & H2 & H3);
      [now apply keys_mapSet_NoDup|].
    repeat split; [assumption| |].
    + rewrite H2. destruct (lastRecord k events); [reflexivity|].
      unfold onScriptParsed. rewrite mapGet_mapSet.
      now destruct (scriptId e =? k).
    + pose proof (keys_mapSet_length (scriptId e) (recordOf e) m) as H4.
      change (mapSet (scriptId e) (recordOf e) m)
        with (onScriptParsed m e) in H4.
      lia.
Qed.

(** The registry built by the [scriptParsed] handler holds every script
    id once, gives for an id the record of the last event that carried
    it (and nothing for an id no event carried), and is no longer than
    the list of events. *)
Theorem collectScripts_last_write_wins (events : list scriptParsed)
    (k : string) :
  NoDup (map fst (collectScripts events))
  /\ mapGet k (collectScripts events) = lastRecord k events
  /\ List.length (collectScripts events) <= List.length events.
Proof.
  destruct (collect_from events [] k) as (H1 & H2 & H3); [constructor|].
  repeat split; [assumption| |assumption].
  unfold collectScripts. rewrite H2. now destruct (lastRecord k events).
Qed.

(** A later event for a known id replaces the record and keeps the place
    of the id in the iteration order; an event for a new id appends it. *)
Theorem onScriptParsed_keeps_order (scripts : list (string * ScriptRecord))
    (event : scriptParsed) :
  map fst (onScriptParsed scripts event)
  = (if existsb (String.eqb (scriptId event)) (map fst scripts)
     then map fst scripts
     else map fst scripts ++ [scriptId event])%list
  /\ mapGet (scriptId event) (onScriptParsed scripts event)
     = Some (recordOf event)
  /\ (forall k, k <> scriptId event ->
        mapGet k (onScriptParsed scripts event) = mapGet k scripts).
Proof.
  unfold onScriptParsed. repeat split.
  - apply keys_mapSet.
  - rewrite mapGet_mapSet. now rewrite String.eqb_refl.
  - intros k Hk. rewrite mapGet_mapSet.
    destruct (String.eqb_spec (scriptId event) k); [congruence|reflexivity].
Qed.

(* ================================================================== *)
(** ** Route discovery *)
(* ================================================================== *)

(** Of the four tests on an [href], the last one decides. *)
Lemma isRoute_startsWith_slash (href : string) :
  isRoute href = JS.startsWith href "/".
Proof.
  unfold isRoute. destruct (JS.startsWith href "/") eqn:E;
    [|now rewrite andb_false_r].
  apply startsWith_iff in E as [rest ->]. reflexivity.
Qed.

Lemma setAdd_NoDup (x : string) (s : list string) :
  NoDup s -> NoDup (setAdd x s).
Proof.
  intros H. unfold setAdd.
  destruct (existsb (String.eqb x) s) eqn:E; [assumption|].
  apply NoDup_snoc; [assumption|].
  intros Hin. apply existsb_eqb_In in Hin. congruence.
Qed.

Lemma setAdd_In (x y : string) (s : list string) :
  In y (setAdd x s) -> y = x \/ In y s.
Proof.
  unfold setAdd. destruct (existsb (String.eqb x) s); [now right|].
  rewrite in_app_iff. intros [H|[->|[]]]; [now right|now left].
Qed.

Lemma routes_fold (hrefs routes : list string) :
  NoDup routes ->
  let all := fold_left (fun routes href => if isRoute href
                                           then setAdd href routes
                                           else routes) hrefs routes in
  NoDup all
  /\ forall r, In r all -> In r routes \/ (In r hrefs /\ isRoute r = true).
Proof.
  revert routes. induction hrefs as [|h hrefs IH]; intros routes Hn; simpl.
  - split; [assumption|]. intros r H. now left.
  - destruct (isRoute h) eqn:Eh.
    + destruct (IH (setAdd h routes) (setAdd_NoDup h routes Hn)) as [H1 H2].
      split; [assumption|]. intros r Hr.
      destruct (H2 r Hr) as [H|[H Hroute]].
      * apply setAdd_In in H as [E|H]; [|now left].
        subst r. right. split; [now left|assumption].
      * right. split; [now right|assumption].
    + destruct (IH routes Hn) as [H1 H2].
      split; [assumption|]. intros r Hr.
      destruct (H2 r Hr) as [H|[H Hroute]]; [now left|].
      right. split; [now right|assumption].
Qed.

Lemma firstn_In (n : nat) (l : list string) (x : string) :
  In x (firstn n l) -> In x l.
Proof.
  revert l. induction n as [|n IH]; intros l H; [contradiction|].
  destruct l as [|y l]; [contradiction|].
  destruct H as [H|H]; [now left|right; now apply IH].
Qed.

Lemma firstn_NoDup (n : nat) (l : list string) :
  NoDup l -> NoDup (firstn n l).
Proof.
  revert l. induction n as [|n IH]; intros l H; [constructor|].
  destruct l as [|y l]; [constructor|]. inversion H; subst.
  simpl. constructor; [|now apply IH].
  intros Hin. now apply firstn_In in Hin.
Qed.

(** The routes [processUrl] navigates to are at most five, pairwise
    different, each an [href] of the page that begins with [/]; the cut
    to ten routes made inside the page has no effect on them, and of the
    four tests on an [href] only the last decides. *)
Theorem routesToVisit_bounded (hrefs : list string) :
  List.length (routesToVisit hrefs) <= 5
  /\ NoDup (routesToVisit hrefs)
  /\ (forall r, In r (routesToVisit hrefs) ->
        In r hrefs /\ JS.startsWith r "/" = true)
  /\ routesToVisit hrefs
     = firstn 5 (fold_left (fun routes href =>
                              if JS.startsWith href "/"
                              then setAdd href routes else routes) hrefs []).
Proof.
  unfold routesToVisit, discoverRoutes.
  destruct (routes_fold hrefs [] (NoDup_nil _)) as [Hn Hin].
  cbv zeta in Hn, Hin. rewrite firstn_firstn. change (Nat.min 5 10) with 5.
  split; [apply firstn_le_length|].
  split; [now apply firstn_NoDup|]. split.
  - intros r Hr. apply firstn_In in Hr.
    destruct (Hin r Hr) as [[]|[H Hroute]].
    split; [assumption|]. now rewrite <- isRoute_startsWith_slash.
  - f_equal. clear Hn Hin. generalize (@nil string).
    induction hrefs as [|h hrefs IH]; intros acc; simpl; [reflexivity|].
    rewrite isRoute_startsWith_slash. apply IH.
Qed.

(* ================================================================== *)
(** ** Accounting of [extractOriginalSources] *)
(* ================================================================== *)

Lemma accounted_refl (st : tally) : accounted st st.
Proof. unfold accounted. lia. Qed.

Lemma accounted_trans (a b c : tally) :
  accounted a b -> accounted b c -> accounted a c.
Proof. unfold accounted. lia. Qed.

Lemma sameSkips_refl (st : tally) : sameSkips st st.
Proof. repeat split. Qed.

Lemma sameSkips_trans (a b c : tally) :
  sameSkips a b -> sameSkips b c -> sameSkips a c.
Proof. unfold sameSkips. intros (? & ? & ?) (? & ? & ?). repeat split; congruence. Qed.

Section Accounting.

Variable w : World.
Variable filters : list string.

Lemma saveEntry_accounted (sourceFilePath : json) (content : string)
    (st st' : tally) :
  saveEntry w filters sourceFilePath content st = Returns tt st' ->
  accounted st st' /\ sameSkips st st'.
Proof.
  unfold saveEntry, throw.
  destruct sourceFilePath as [| | |p| |]; try discriminate.
  destruct (negb (passesFilter filters (normalizeSourceFilePath p))).
  { intros [= <-]. split; [apply accounted_refl|apply sameSkips_refl]. }
  unfold bind, lift.
  destruct (safePathJoin (cwd w) OUTPUT_DIR (normalizeSourceFilePath p))
    as [dest|e]; [|discriminate].
  unfold ret, ensureDir.
  destruct (mkdirSync w (log st) (Path.dirname dest)); [|discriminate].
  unfold writeFile.
  destruct (writeFileSync w _ dest content); [|discriminate].
  unfold modify. intros [= <-].
  split; [unfold accounted; simpl; lia|repeat split].
Qed.

Lemma processSource_accounted (base : option string)
    (source embedded : option json) (st st' : tally) :
  processSource w filters base source embedded st = Returns tt st' ->
  accounted st st' /\ sameSkips st st'.
Proof.
  destruct (Value.notNullish embedded) eqn:Hn.
  - destruct embedded as [v|]; [|discriminate].
    rewrite processSource_embedded by (intros ->; discriminate).
    destruct (Value.toStr v); [apply saveEntry_accounted|discriminate].
  - rewrite processSource_network by assumption.
    destruct (networkTarget w base source) as [u|].
    + destruct (fetchUrl w (log st) u) as [content|].
      * intros H. apply saveEntry_accounted in H as [Ha Hs].
        split; [|exact Hs]. unfold accounted in *. simpl in Ha. exact Ha.
      * intros [= <-]. split; [unfold accounted; simpl; lia|repeat split].
    + intros [= <-]. split; [apply accounted_refl|apply sameSkips_refl].
Qed.

Lemma sourcesLoop_accounted (base : option string)
    (sources sourcesContent : json) (n i : nat) (st st' : tally) :
  sourcesLoop w filters base sources sourcesContent i n st = Returns tt st' ->
  accounted st st' /\ sameSkips st st'.
Proof.
  revert i st. induction n as [|n IH]; intros i st; cbn [sourcesLoop].
  - intros [= <-]. split; [apply accounted_refl|apply sameSkips_refl].
  - unfold bind at 1.
    destruct (processSource w filters base (Value.index sources i)
                (Value.index sourcesContent i) st) as [[] st1|e st1|] eqn:E;
      try discriminate.
    intros H. apply IH in H as [Ha Hs].
    apply processSource_accounted in E as [Ha1 Hs1].
    split; [eapply accounted_trans|eapply sameSkips_trans]; eassumption.
Qed.

Lemma processScript_accounted (metadata : ScriptRecord) (st st' : tally) :
  processScript w filters metadata st = Returns tt st' ->
  accounted st st'
  /\ skippedNoMapRef st'
     = skippedNoMapRef st + (if sourceMapURL metadata =? "" then 1 else 0)
  /\ skips st' <= skips st + 1.
Proof.
  unfold processScript, skips.
  destruct (sourceMapURL metadata =? "").
  { unfold modify. intros [= <-]. unfold accounted. simpl. lia. }
  assert (Hfail : forall st0 : tally,
            accounted st st0 -> sameSkips st st0 ->
            modify fetchFailed st0 = Returns tt st' ->
            accounted st st' /\
            skippedNoMapRef st' = skippedNoMapRef st + 0 /\
            skippedNoMapRef st' + skippedFetchFailed st' + skippedInvalid st'
            <= skippedNoMapRef st + skippedFetchFailed st + skippedInvalid st + 1).
  { intros st0 Ha (H1 & H2 & H3). unfold modify. intros [= <-].
    unfold accounted in *. simpl. lia. }
  destruct (resolveSourceMapUrl (URL_new w) (sourceMapURL metadata) (url metadata))
    as [sourceMapUrl|];
    [|apply Hfail; [apply accounted_refl|apply sameSkips_refl]].
  destruct (sourceMapUrl =? "");
    [apply Hfail; [apply accounted_refl|apply sameSkips_refl]|].
  unfold bind at 1. unfold tryFetch.
  set (st1 := logged (Fetch sourceMapUrl) st).
  assert (Ha1 : accounted st st1) by (unfold accounted; simpl; lia).
  assert (Hs1 : sameSkips st st1) by (repeat split).
  destruct (fetchUrl w (log st) sourceMapUrl) as [body|];
    [|now apply Hfail].
  destruct (JSON_parse w body) as [sourceMap|].
  2:{ unfold modify. intros [= <-]. unfold accounted in *. simpl in *. lia. }
  unfold bind at 1.
  destruct (lift (Value.getMember sourceMap "sources") st1)
    as [s st2|e st2|] eqn:E2; try discriminate.
  assert (st2 = st1) as -> by
    (destruct (Value.getMember sourceMap "sources"); simpl in E2;
     unfold ret, throw in E2; congruence).
  unfold bind at 1.
  destruct (lift (Value.getMember sourceMap "sourcesContent") st1)
    as [c st3|e st3|] eqn:E3; try discriminate.
  assert (st3 = st1) as -> by
    (destruct (Value.getMember sourceMap "sourcesContent"); simpl in E3;
     unfold ret, throw in E3; congruence).
  destruct (Value.iterations (countBelow w) (Value.orEmptyArray s))
    as [[n|]|e]; [| |discriminate].
  2:{ unfold bind, unfinished.
      now destruct (sourcesLoop w filters _ _ _ 0 (patience w) st1)
        as [[] st4|e st4|st4]. }
  intros H. apply sourcesLoop_accounted in H as [Ha (H1 & H2 & H3)].
  destruct Hs1 as (K1 & K2 & K3).
  split; [exact (accounted_trans _ _ _ Ha1 Ha)|]. lia.
Qed.

Lemma scriptsLoop_accounted (scripts : list (string * ScriptRecord))
    (st st' : tally) :
  scriptsLoop w filters scripts st = Returns tt st' ->
  accounted st st'
  /\ skippedNoMapRef st' = skippedNoMapRef st + withoutMapRef scripts
  /\ skips st' <= skips st + List.length scripts.
Proof.
  revert st. induction scripts as [|[id metadata] rest IH]; intros st;
    cbn [scriptsLoop].
  - intros [= <-]. split; [apply accounted_refl|]. unfold withoutMapRef.
    simpl. lia.
  - unfold bind at 1.
    destruct (processScript w filters metadata st) as [[] st1|e st1|] eqn:E;
      try discriminate.
    intros H. apply IH in H as (Ha & Hn & Hs).
    apply processScript_accounted in E as (Ha1 & Hn1 & Hs1).
    split; [eapply accounted_trans; eassumption|].
    unfold withoutMapRef in *. cbn [filter snd List.length].
    destruct (sourceMapURL metadata =? ""); cbn [List.length]; lia.
Qed.

End Accounting.

(** When [extractOriginalSources] returns, whatever the sourcemaps hold
    (a [sources] that is an array, a string, or an object with a [length]
    and numbered members of its own), the number it returns is the number
    of [writeFileSync] calls it made, the count of scripts without
    sourcemap reference is exact, and the three skip counters together
    do not exceed the number of scripts. *)
Theorem extractOriginalSources_accounting (w : World) (filters : list string)
    (scripts : list (string * ScriptRecord)) (history : list event)
    (n : nat) (st : tally) :
  extractOriginalSources w filters scripts history = Returns n st ->
  n = savedCount st
  /\ List.length (writeCalls (log st)) = List.length (writeCalls history) + n
  /\ skippedNoMapRef st = withoutMapRef scripts
  /\ skips st <= List.length scripts.
Proof.
  unfold extractOriginalSources, bind.
  destruct (scriptsLoop w filters scripts _) as [[] st1|e st1|] eqn:E;
    try discriminate.
  intros [= <- <-].
  apply scriptsLoop_accounted in E as (Ha & Hn & Hs).
  unfold accounted, skips in *. simpl in *. repeat split; lia.
Qed.

Lemma extractOriginalSources_accounting_witness :
  extractOriginalSources (Demo.world Demo.served) []
    [("1", {| url := "https://cdn.test/app.js"; sourceMapURL := "app.js.map" |});
     ("2", {| url := "https://cdn.test/lib.js"; sourceMapURL := "" |});
     ("3", {| url := "https://cdn.test/x.js"; sourceMapURL := "missing.map" |});
     ("4", {| url := "https://cdn.test/y.js"; sourceMapURL := "arraylike.js.map" |})]
    []
  = Returns 4
      {| savedCount := 4; skippedNoMapRef := 1; skippedFetchFailed := 1;
         skippedInvalid := 0;
         log := [WriteFile "/work/out/p.js" "P";
                 Mkdir "/work/out";
                 WriteFile "/work/out/src/o.js" "O";
                 Mkdir "/work/out/src";
                 Fetch "https://cdn.test/arraylike.js.map";
                 Fetch "https://cdn.test/missing.map";
                 WriteFile "/work/out/b.js" "content-B";
                 Mkdir "/work/out";
                 Fetch "https://cdn.test/b.js";
                 WriteFile "/work/out/_up_/shared/a.js" "content-A";
                 Mkdir "/work/out/_up_/shared";
                 Fetch "https://cdn.test/app.js.map"] |}
  /\ 4 = 4 /\ 4 = 0 + 4 /\ 1 = 1 /\ 2 <= 4.
Proof.
  refine ((fun E => conj E
             (extractOriginalSources_accounting (Demo.world Demo.served) []
                _ [] 4 _ E)) _).
  vm_compute. reflexivity.
Defined.

(* ================================================================== *)
(** ** [extractGeneratedScripts] *)
(* ================================================================== *)

Lemma urlToFilesystemPath_not_empty (u : string) :
  (urlToFilesystemPath u =? "") = false.
Proof.
  unfold urlToFilesystemPath. destruct (u =? ""); [reflexivity|]. cbv zeta.
  match goal with |- context [if ?r =? "" then _ else _] =>
    destruct (String.eqb_spec r "") as [E|E] end; [reflexivity|].
  now apply String.eqb_neq.
Qed.

Section GeneratedFacts.

Variable w : World.
Variable filters : list string.
Variable getScriptSource : list event -> string -> option (option string).

(** One iteration always returns: whatever throws in the [try] block is
    swallowed.  It fetches nothing, saves at most one file, and a file it
    hands to [writeFileSync] goes to the safe destination of the script's
    path, for a script that passed the filter. *)
Lemma processGenerated_effect (id : string) (metadata : ScriptRecord)
    (st : tally) :
  exists st',
    processGenerated w filters getScriptSource id metadata st = Returns tt st'
    /\ fetched (log st') = fetched (log st)
    /\ savedCount st <= savedCount st' <= S (savedCount st)
    /\ (written (log st') = written (log st)
        \/ exists dest content,
             (matchesFilter filters (urlToFilesystemPath (url metadata)) = true
              \/ matchesFilter filters (url metadata) = true)
             /\ safePathJoin (cwd w) OUTPUT_DIR
                  (urlToFilesystemPath (url metadata)) = Ok dest
             /\ written (log st') = (written (log st) ++ [(dest, content)])%list).
Proof.
  unfold processGenerated. cbv zeta.
  destruct (negb (matchesFilter filters (urlToFilesystemPath (url metadata)))
            && negb (matchesFilter filters (url metadata))) eqn:Hf.
  { exists st. repeat split; try lia. now left. }
  assert (Hpass : matchesFilter filters (urlToFilesystemPath (url metadata)) = true
                  \/ matchesFilter filters (url metadata) = true).
  { apply andb_false_iff in Hf as [H|H]; apply negb_false_iff in H; auto. }
  unfold catchAll, saveGenerated.
  destruct (getScriptSource (log st) id) as [scriptSource|];
    [|exists st; repeat split; try lia; now left].
  rewrite urlToFilesystemPath_not_empty. unfold bind, lift.
  destruct (safePathJoin (cwd w) OUTPUT_DIR (urlToFilesystemPath (url metadata)))
    as [dest|e] eqn:Hj; [|exists st; repeat split; try lia; now left].
  unfold ret, ensureDir.
  destruct (mkdirSync w (log st) (Path.dirname dest));
    [|eexists; repeat split; simpl; try lia; now left].
  unfold writeFile.
  destruct (writeFileSync w _ dest _); unfold modify;
    eexists; (repeat split; simpl; try lia; try reflexivity);
    right; eexists dest, _; repeat split; try reflexivity; assumption.
Qed.

Lemma generatedLoop_effect (scripts : list (string * ScriptRecord))
    (st : tally) :
  exists st',
    generatedLoop w filters getScriptSource scripts st = Returns tt st'
    /\ fetched (log st') = fetched (log st)
    /\ savedCount st <= savedCount st' <= savedCount st + List.length scripts
    /\ (forall dest content, In (dest, content) (written (log st')) ->
          In (dest, content) (written (log st))
          \/ exists id metadata,
               In (id, metadata) scripts
               /\ (matchesFilter filters (urlToFilesystemPath (url metadata)) = true
                   \/ matchesFilter filters (url metadata) = true)
               /\ safePathJoin (cwd w) OUTPUT_DIR
                    (urlToFilesystemPath (url metadata)) = Ok dest).
Proof.
  revert st. induction scripts as [|[id metadata] rest IH]; intros st;
    cbn [generatedLoop].
  - exists st. repeat split; simpl; try lia. intros dest content H. now left.
  - destruct (processGenerated_effect id metadata st)
      as (st1 & E1 & F1 & C1 & W1).
    destruct (IH st1) as (st' & E & F & C & W).
    exists st'. unfold bind. rewrite E1. split; [exact E|].
    split; [congruence|]. split; [simpl; lia|].
    intros dest content Hin. destruct (W dest content Hin) as [H|H].
    + destruct W1 as [W1|(d & c & Hp & Hj & W1)]; rewrite W1 in H.
      * now left.
      * apply in_app_iff in H as [H|[[= <- <-]|[]]]; [now left|].
        right. exists id, metadata. repeat split; [now left|assumption..].
    + destruct H as (id' & md' & Hin' & Hp & Hj). right.
      exists id', md'. repeat split; [now right|assumption..].
Qed.

End GeneratedFacts.

(** [extractGeneratedScripts] always returns a count, whatever the
    debugger, the path check and the file system do: every failure inside
    an iteration is swallowed.  The count is at most the number of
    scripts, and the function never calls [fetchUrl]. *)
Theorem extractGeneratedScripts_completes (w : World) (filters : list string)
    (getScriptSource : list event -> string -> option (option string))
    (scripts : list (string * ScriptRecord)) (history : list event) :
  exists n st,
    extractGeneratedScripts w filters getScriptSource scripts history
    = Returns n st
    /\ n = savedCount st
    /\ n <= List.length scripts
    /\ fetched (log st) = fetched history.
Proof.
  unfold extractGeneratedScripts.
  destruct (generatedLoop_effect w filters getScriptSource scripts
              {| savedCount := 0; skippedNoMapRef := 0;
                 skippedFetchFailed := 0; skippedInvalid := 0;
                 log := history |}) as (st & E & F & C & _).
  exists (savedCount st), st. unfold bind. rewrite E.
  repeat split; [simpl in C; lia|exact F].
Qed.

(** Every file [extractGeneratedScripts] hands to [writeFileSync] goes to
    the destination [safePathJoin] accepted for the path of one of the
    scripts, and that script passed the filter by its path or by its
    URL. *)
Theorem extractGeneratedScripts_destinations (w : World)
    (filters : list string)
    (getScriptSource : list event -> string -> option (option string))
    (scripts : list (string * ScriptRecord)) (history : list event)
    (n : nat) (st : tally) (dest content : string) :
  extractGeneratedScripts w filters getScriptSource scripts history
  = Returns n st ->
  In (dest, content) (written (log st)) ->
  In (dest, content) (written history)
  \/ exists id metadata,
       In (id, metadata) scripts
       /\ (matchesFilter filters (urlToFilesystemPath (url metadata)) = true
           \/ matchesFilter filters (url metadata) = true)
       /\ safePathJoin (cwd w) OUTPUT_DIR
            (urlToFilesystemPath (url metadata)) = Ok dest.
Proof.
  unfold extractGeneratedScripts.
  destruct (generatedLoop_effect w filters getScriptSource scripts
              {| savedCount := 0; skippedNoMapRef := 0;
                 skippedFetchFailed := 0; skippedInvalid := 0;
                 log := history |}) as (st' & E & _ & _ & W).
  unfold bind. rewrite E. intros [= <- <-]. apply W.
Qed.

Lemma extractGeneratedScripts_destinations_witness :
  extractGeneratedScripts (Demo.world Demo.served) ["/src/"]
    (fun _ id => if id =? "7" then Some (Some "let a = 1;") else None)
    [("7", {| url := "https://site.test/src/app.js?v=2"; sourceMapURL := "" |});
     ("8", {| url := "https://site.test/src/lost.js"; sourceMapURL := "" |})]
    []
  = Returns 1
      {| savedCount := 1; skippedNoMapRef := 0; skippedFetchFailed := 0;
         skippedInvalid := 0;
         log := [WriteFile "/work/out/site.test/src/app.js" "let a = 1;";
                 Mkdir "/work/out/site.test/src"] |}
  /\ In ("/work/out/site.test/src/app.js", "let a = 1;")
        [("/work/out/site.test/src/app.js", "let a = 1;")]
  /\ (In ("/work/out/site.test/src/app.js", "let a = 1;") (written [])
      \/ exists id metadata,
           In (id, metadata)
              [("7", {| url := "https://site.test/src/app.js?v=2"; sourceMapURL := "" |});
               ("8", {| url := "https://site.test/src/lost.js"; sourceMapURL := "" |})]
           /\ (matchesFilter ["/src/"] (urlToFilesystemPath (url metadata)) = true
               \/ matchesFilter ["/src/"] (url metadata) = true)
           /\ safePathJoin (cwd (Demo.world Demo.served)) OUTPUT_DIR
                (urlToFilesystemPath (url metadata))
              = Ok "/work/out/site.test/src/app.js").
Proof.
  split; [reflexivity|]. split; [now left|].
  exact (extractGeneratedScripts_destinations (Demo.world Demo.served) ["/src/"]
           (fun _ id => if id =? "7" then Some (Some "let a = 1;") else None)
           [("7", {| url := "https://site.test/src/app.js?v=2"; sourceMapURL := "" |});
            ("8", {| url := "https://site.test/src/lost.js"; sourceMapURL := "" |})]
           [] 1 _ "/work/out/site.test/src/app.js" "let a = 1;"
           eq_refl (or_introl eq_refl)).
Defined.

(* ================================================================== *)
(** ** Destinations of [extractOriginalSources] *)
(* ================================================================== *)

Section Destinations.

Variable w : World.
Variable filters : list string.

Lemma safeWrites_refl (l : list event) : safeWrites w filters l l.
Proof. intros dest content H. now left. Qed.

Lemma safeWrites_trans (a b c : list event) :
  safeWrites w filters a b -> safeWrites w filters b c ->
  safeWrites w filters a c.
Proof.
  intros Hab Hbc dest content H.
  destruct (Hbc dest content H) as [H1|H1]; [now apply Hab|now right].
Qed.

Lemma processSource_safeWrites (base : option string)
    (source embedded : option json) (st st' : tally) :
  finalState (processSource w filters base source embedded st) = Some st' ->
  safeWrites w filters (log st) (log st').
Proof.
  intros H.
  destruct (processSource_effect w filters base source embedded st)
    as (st0 & Hf & _ & _ & _ & Hw).
  rewrite Hf in H. injection H as <-.
  destruct Hw as [[Hw _]|(p & d & c & _ & Hpass & Hj & Hw)];
    intros dest content Hin; rewrite Hw in Hin; [now left|].
  apply in_app_iff in Hin as [Hin|[[= <- <-]|[]]]; [now left|].
  right. now exists p.
Qed.

Lemma sourcesLoop_safeWrites (base : option string)
    (sources sourcesContent : json) (n i : nat) (st st' : tally) :
  finalState (sourcesLoop w filters base sources sourcesContent i n st)
  = Some st' ->
  safeWrites w filters (log st) (log st').
Proof.
  revert i st. induction n as [|n IH]; intros i st; cbn [sourcesLoop].
  - intros [= <-]. apply safeWrites_refl.
  - unfold bind at 1.
    destruct (processSource w filters base (Value.index sources i)
                (Value.index sourcesContent i) st) as [[] st1|e st1|st1] eqn:E.
    + intros H. apply IH in H.
      eapply safeWrites_trans; [|exact H].
      apply (processSource_safeWrites base (Value.index sources i)
               (Value.index sourcesContent i)). now rewrite E.
    + intros [= <-].
      apply (processSource_safeWrites base (Value.index sources i)
               (Value.index sourcesContent i)). now rewrite E.
    + intros [= <-].
      apply (processSource_safeWrites base (Value.index sources i)
               (Value.index sourcesContent i)). now rewrite E.
Qed.

Lemma processScript_safeWrites (metadata : ScriptRecord) (st st' : tally) :
  finalState (processScript w filters metadata st) = Some st' ->
  safeWrites w filters (log st) (log st').
Proof.
  unfold processScript.
  destruct (sourceMapURL metadata =? "");
    [intros [= <-]; apply safeWrites_refl|].
  destruct (resolveSourceMapUrl (URL_new w) (sourceMapURL metadata) (url metadata))
    as [sourceMapUrl|]; [|intros [= <-]; apply safeWrites_refl].
  destruct (sourceMapUrl =? ""); [intros [= <-]; apply safeWrites_refl|].
  unfold bind at 1. unfold tryFetch.
  set (st1 := logged (Fetch sourceMapUrl) st).
  assert (H1 : safeWrites w filters (log st) (log st1))
    by (intros dest content H; now left).
  destruct (fetchUrl w (log st) sourceMapUrl) as [body|];
    [|intros [= <-]; exact H1].
  destruct (JSON_parse w body) as [sourceMap|]; [|intros [= <-]; exact H1].
  unfold bind at 1.
  destruct (Value.getMember sourceMap "sources") as [s|e];
    [|intros [= <-]; exact H1].
  cbn [lift ret]. unfold bind at 1.
  destruct (Value.getMember sourceMap "sourcesContent") as [c|e];
    [|intros [= <-]; exact H1].
  cbn [lift ret].
  destruct (Value.iterations (countBelow w) (Value.orEmptyArray s))
    as [[n|]|e]; [| |intros [= <-]; exact H1].
  - intros H. apply sourcesLoop_safeWrites in H.
    exact (safeWrites_trans _ _ _ H1 H).
  - unfold bind, unfinished.
    destruct (sourcesLoop w filters _ _ _ 0 (patience w) st1)
      as [[] st2|e st2|st2] eqn:E; intros [= <-];
      refine (safeWrites_trans _ _ _ H1 _);
      eapply sourcesLoop_safeWrites; rewrite E; reflexivity.
Qed.

Lemma scriptsLoop_safeWrites (scripts : list (string * ScriptRecord))
    (st st' : tally) :
  finalState (scriptsLoop w filters scripts st) = Some st' ->
  safeWrites w filters (log st) (log st').
Proof.
  revert st. induction scripts as [|[id metadata] rest IH]; intros st;
    cbn [scriptsLoop].
  - intros [= <-]. apply safeWrites_refl.
  - unfold bind at 1.
    destruct (processScript w filters metadata st) as [[] st1|e st1|st1] eqn:E.
    + intros H. apply IH in H. eapply safeWrites_trans; [|exact H].
      apply (processScript_safeWrites metadata). now rewrite E.
    + intros [= <-]. apply (processScript_safeWrites metadata). now rewrite E.
    + intros [= <-]. apply (processScript_safeWrites metadata). now rewrite E.
Qed.

End Destinations.

(** Traversal safety of a whole run: with an absolute working directory,
    every file [extractOriginalSources] hands to [writeFileSync], also in
    a run that ends in an exception and at every round of a run that
    never ends, whatever the sourcemaps hold, goes to the output
    directory itself or to a path made of the output directory, a
    separator and a non-empty relative path none of whose segments is
    [..], [.] or empty. *)
Theorem extractOriginalSources_writes_inside (w : World)
    (filters : list string) (scripts : list (string * ScriptRecord))
    (history : list event) (st : tally) (dest content : string) :
  JS.startsWith (cwd w) "/" = true ->
  finalState (extractOriginalSources w filters scripts history) = Some st ->
  In (dest, content) (written (log st)) ->
  In (dest, content) (written history)
  \/ dest = Path.resolve (cwd w) [OUTPUT_DIR]
  \/ exists rel,
       rel <> "" /\ Forall cleanSegment (pathSegments rel)
       /\ dest = Path.resolve (cwd w) [OUTPUT_DIR] ++ "/" ++ rel.
Proof.
  intros Hcwd Hfinal Hin.
  assert (Hsafe : safeWrites w filters history (log st)).
  { unfold extractOriginalSources, bind in Hfinal.
    match type of Hfinal with context [scriptsLoop w filters scripts ?s0] =>
      destruct (scriptsLoop w filters scripts s0) as [[] st1|e st1|st1] eqn:E;
        injection Hfinal as <-;
        apply (scriptsLoop_safeWrites w filters scripts s0); now rewrite E
    end. }
  destruct (Hsafe dest content Hin) as [H|(p & _ & Hj)]; [now left|].
  right.
  destruct (safePathJoin_accepts (cwd w) Hcwd OUTPUT_DIR
              (normalizeSourceFilePath p) (output_dir_not_root (cwd w) Hcwd))
    as [[_ H]|[Hne H]]; rewrite H in Hj; injection Hj as <-; [now left|].
  right. exists (sanitizePath (normalizeSourceFilePath p)).
  repeat split; [assumption|apply sanitizePath_segments_clean].
Qed.

Lemma extractOriginalSources_writes_inside_witness :
  JS.startsWith (cwd (Demo.world Demo.served)) "/" = true
  /\ extractOriginalSources (Demo.world Demo.served) []
       [("1", {| url := "https://cdn.test/app.js"; sourceMapURL := "endless.js.map" |});
        ("2", {| url := "https://cdn.test/app.js"; sourceMapURL := "arraylike.js.map" |})]
       []
     = Unfinished
         {| savedCount := 3; skippedNoMapRef := 0; skippedFetchFailed := 0;
            skippedInvalid := 0;
            log := [WriteFile "/work/out/index.txt" Demo.endlessMap;
                    Mkdir "/work/out";
                    Fetch "https://cdn.test/endless.js.map";
                    WriteFile "/work/out/index.txt" Demo.endlessMap;
                    Mkdir "/work/out";
                    Fetch "https://cdn.test/endless.js.map";
                    WriteFile "/work/out/index.txt" "E";
                    Mkdir "/work/out";
                    Fetch "https://cdn.test/endless.js.map"] |}
  /\ (In ("/work/out/index.txt", "E") (written [])
      \/ "/work/out/index.txt"
         = Path.resolve (cwd (Demo.world Demo.served)) [OUTPUT_DIR]
      \/ exists rel,
           rel <> "" /\ Forall cleanSegment (pathSegments rel)
           /\ "/work/out/index.txt"
              = Path.resolve (cwd (Demo.world Demo.served)) [OUTPUT_DIR]
                ++ "/" ++ rel).
Proof.
  split; [reflexivity|].
  match goal with |- ?run = Unfinished ?st /\ _ =>
    assert (E : run = Unfinished st) by (vm_compute; reflexivity);
    split; [exact E|];
    apply (extractOriginalSources_writes_inside (Demo.world Demo.served) []
             [("1", {| url := "https://cdn.test/app.js"; sourceMapURL := "endless.js.map" |});
              ("2", {| url := "https://cdn.test/app.js"; sourceMapURL := "arraylike.js.map" |})]
             [] st "/work/out/index.txt" "E" eq_refl)
  end.
  - rewrite E. reflexivity.
  - cbn [log written app]. now left.
Defined.
